(** * betternews: threaded comments, denormalised counters and upvote toggling

    A shallow embedding of the route handlers of [commentsRouter] and
    [postRouter] (src/server/routes) over an explicit model of the relational
    store declared in src/server/adapter.ts and the table schemas.

    Modelling conventions.
    - A table is the list of its rows, in storage order.  [insert] appends,
      [update] rewrites the rows a predicate selects, [delete] removes them.
    - Columns of type [integer] are [Z]; the storage engine's own range check
      is not part of this source and is not modelled.
    - A [serial] primary key receives, on insert, an id no row of the table
      carries ([fresh_id]).
    - [defaultNow()] reads a clock: the mutating handlers take the reading
      [now] as an argument.
    - A transaction body is a state-and-exception computation [Tx];
      [db_transaction] commits the final store when the body returns and
      keeps the initial store when it throws.
    - A route handler yields a [Reply]: the exception it throws, the response
      it returns, or [Undefined] when its body ends without a return. *)

From Stdlib Require Import List ZArith String Bool Lia.
From Stdlib Require Import Sorted Permutation.
From Stdlib Require Import QArith Qround.
Import ListNotations.

Local Open Scope string_scope.
Local Open Scope Z_scope.

(** ** Rows *)

(** The authenticated identity [c.get("user")], also the two columns of the
    user table the routes read. *)
Record User := mkUser { user_id : string; user_username : string }.

(** The [author] projection [{ username, id }]. *)
Record Author := mkAuthor { author_username : string; author_id : string }.

Module Post.
(** Modelled from the spec: the posts table (db/schemas/posts is not among
    the sources): id, authorId, title, content (nullable), url (nullable),
    points (default 0), commentCount (default 0), createdAt.  Column names
    are the ones the routes use. *)
Record t := mk {
  id : Z;
  userId : string;
  title : string;
  url : option string;
  content : option string;
  points : Z;
  commentCount : Z;
  createdAt : Z
}.

Definition set_points (f : Z -> Z) (p : t) : t :=
  mk (id p) (userId p) (title p) (url p) (content p) (f (points p))
     (commentCount p) (createdAt p).

Definition set_commentCount (f : Z -> Z) (p : t) : t :=
  mk (id p) (userId p) (title p) (url p) (content p) (points p)
     (f (commentCount p)) (createdAt p).
End Post.

Module Comment.
(** [commentsTable] of db/schemas/comments. *)
Record t := mk {
  id : Z;
  userId : string;
  postId : Z;
  parentCommentId : option Z;
  content : string;
  createdAt : Z;
  depth : Z;
  commentCount : Z;
  points : Z
}.

Definition set_points (f : Z -> Z) (c : t) : t :=
  mk (id c) (userId c) (postId c) (parentCommentId c) (content c)
     (createdAt c) (depth c) (commentCount c) (f (points c)).

Definition set_commentCount (f : Z -> Z) (c : t) : t :=
  mk (id c) (userId c) (postId c) (parentCommentId c) (content c)
     (createdAt c) (depth c) (f (commentCount c)) (points c).
End Comment.

Module PostUpvote.
(** [postUpvoteTable] of db/schemas/upvote. *)
Record t := mk { id : Z; userId : string; postId : Z; createdAt : Z }.
End PostUpvote.

Module CommentUpvote.
(** [commentsUpvoteTable] of db/schemas/upvote. *)
Record t := mk { id : Z; userId : string; commentId : Z; createdAt : Z }.
End CommentUpvote.

(** ** The store *)

(** The tables of the drizzle schema in adapter.ts (sessions are not read by
    these routes). *)
Record Db := mkDb {
  user : list User;
  posts : list Post.t;
  comments : list Comment.t;
  postUpvotes : list PostUpvote.t;
  commentUpvoted : list CommentUpvote.t
}.

Definition empty_db : Db := mkDb [] [] [] [] [].

Definition set_posts (f : list Post.t -> list Post.t) (db : Db) : Db :=
  mkDb (user db) (f (posts db)) (comments db) (postUpvotes db)
       (commentUpvoted db).

Definition set_comments (f : list Comment.t -> list Comment.t) (db : Db) : Db :=
  mkDb (user db) (posts db) (f (comments db)) (postUpvotes db)
       (commentUpvoted db).

Definition set_postUpvotes (f : list PostUpvote.t -> list PostUpvote.t)
    (db : Db) : Db :=
  mkDb (user db) (posts db) (comments db) (f (postUpvotes db))
       (commentUpvoted db).

Definition set_commentUpvoted
    (f : list CommentUpvote.t -> list CommentUpvote.t) (db : Db) : Db :=
  mkDb (user db) (posts db) (comments db) (postUpvotes db)
       (f (commentUpvoted db)).

(** ** Statements on one table *)

Section Table.
Context {A : Type}.

(** [UPDATE ... SET ... WHERE w]: the table afterwards. *)
Definition update_rows (w : A -> bool) (f : A -> A) (rows : list A) : list A :=
  map (fun r => if w r then f r else r) rows.

(** [... RETURNING]: the rows the update rewrote, as written. *)
Definition returning (w : A -> bool) (f : A -> A) (rows : list A) : list A :=
  map f (filter w rows).

(** [DELETE ... WHERE w]. *)
Definition delete_rows (w : A -> bool) (rows : list A) : list A :=
  filter (fun r => negb (w r)) rows.

(** [INSERT]. *)
Definition insert_row (r : A) (rows : list A) : list A := rows ++ [r].

(** The next value of a serial key: above every id of the table. *)
Definition fresh_id (key : A -> Z) (rows : list A) : Z :=
  1 + fold_right (fun r m => Z.max (key r) m) 0 rows.

(** [LIMIT n] and [OFFSET n]: the validated query never hands over a
    negative number; [Z.to_nat] reads one as 0. *)
Definition sql_limit (n : Z) (rows : list A) : list A :=
  firstn (Z.to_nat n) rows.

Definition sql_offset (n : Z) (rows : list A) : list A :=
  skipn (Z.to_nat n) rows.

(** JavaScript's [const [x] = rows]: the first element or [undefined]. *)
Definition first (rows : list A) : option A := hd_error rows.
End Table.

(** [eq(column, value)] on a nullable integer column: NULL equals nothing. *)
Definition eq_nullable (c : option Z) (v : Z) : bool :=
  match c with Some x => x =? v | None => false end.

Definition isNull {A : Type} (c : option A) : bool :=
  match c with Some _ => false | None => true end.

(** ** Exceptions, transactions, replies *)

Inductive HTTPException := mkHTTPException (status : Z) (message : string).

(** A transaction body: it reads and writes the store, and returns or throws. *)
Definition Tx (A : Type) : Type := Db -> HTTPException + (A * Db).

Definition ret {A : Type} (a : A) : Tx A := fun db => inr (a, db).

Definition throw {A : Type} (e : HTTPException) : Tx A := fun _ => inl e.

Definition bind {A B : Type} (m : Tx A) (k : A -> Tx B) : Tx B :=
  fun db => match m db with
            | inl e => inl e
            | inr (a, db') => k a db'
            end.

Notation "x <- m ;; k" := (bind m (fun x => k))
  (at level 61, m at next level, right associativity).

(** A read inside a transaction. *)
Definition query {A : Type} (q : Db -> A) : Tx A := fun db => inr (q db, db).

(** A write inside a transaction, with the rows it returns. *)
Definition exec {A : Type} (w : Db -> A * Db) : Tx A := fun db => inr (w db).

(** [db.transaction(body)]: all of the body's writes, or none. *)
Definition db_transaction {A : Type} (body : Tx A) (db : Db)
    : (HTTPException + A) * Db :=
  match body db with
  | inl e => (inl e, db)
  | inr (a, db') => (inr a, db')
  end.

Inductive Reply (R : Type) : Type :=
| Throws (e : HTTPException)
| Responds (r : R)
| Undefined.
Arguments Throws {R} e.
Arguments Responds {R} r.
Arguments Undefined {R}.

Definition Handler (R : Type) : Type := Db -> Reply R * Db.

(** The [loggedIn] middleware: 401 when no user is resolved. *)
Definition loggedIn {R : Type} (c_user : option User) (next : User -> Handler R)
    : Handler R :=
  fun db => match c_user with
            | None => (Throws (mkHTTPException 401 "Un-Authoraized"), db)
            | Some u => next u db
            end.

(** ** Response shapes *)

(** [SuccessResponse<T>]: [{ success: true, message, data }]. *)
Record SuccessResponse (D : Type) := mkSuccess {
  success : bool;
  message : string;
  data : D
}.
Arguments mkSuccess {D} success message data.
Arguments success {D} s.
Arguments message {D} s.
Arguments data {D} s.

(** [paginatedResponse<T>]: a success response with [pagination].  A number
    is a rational or NaN ([None]). *)
Definition number : Type := option Q.

Record paginatedResponse (D : Type) := mkPaginated {
  p_success : bool;
  p_message : string;
  p_data : D;
  page : Z;
  totalPages : number
}.
Arguments mkPaginated {D} p_success p_message p_data page totalPages.
Arguments p_success {D} p.
Arguments p_message {D} p.
Arguments p_data {D} p.
Arguments page {D} p.
Arguments totalPages {D} p.

(** A comment as the relational queries return it: its columns, the joined
    [author] and the [commentUpvotes] relation restricted to [userId]. *)
Record CommentItem := mkCommentItem {
  item_comment : Comment.t;
  item_author : option Author;
  commentUpvotes : list string
}.

(** A top-level comment with its [childComments] relation. *)
Record CommentNode := mkCommentNode {
  node_item : CommentItem;
  childComments : list CommentItem
}.

(** A post as [GET /] and [GET /:id] project it. *)
Record PostItem := mkPostItem {
  item_post : Post.t;
  post_author : option Author;
  isUpvoted : bool
}.

(** ** Writes of the routes *)

Definition update_posts (w : Post.t -> bool) (f : Post.t -> Post.t)
    : Tx (list Post.t) :=
  exec (fun db => (returning w f (posts db), set_posts (update_rows w f) db)).

Definition update_comments (w : Comment.t -> bool) (f : Comment.t -> Comment.t)
    : Tx (list Comment.t) :=
  exec (fun db =>
          (returning w f (comments db), set_comments (update_rows w f) db)).

(** The columns an insert into [commentsTable] may leave to their defaults. *)
Record CommentValues := mkCommentValues {
  v_content : string;
  v_userId : string;
  v_postId : Z;
  v_parentCommentId : option Z;
  v_depth : option Z
}.

Definition default {A : Type} (d : A) (v : option A) : A :=
  match v with Some x => x | None => d end.

(** [tx.insert(commentsTable).values(v).returning(...)]. *)
Definition insert_comment (now : Z) (v : CommentValues) : Tx (list Comment.t) :=
  exec (fun db =>
          let row :=
            Comment.mk (fresh_id Comment.id (comments db)) (v_userId v)
                       (v_postId v) (v_parentCommentId v) (v_content v) now
                       (default 0 (v_depth v)) 0 0 in
          ([row], set_comments (insert_row row) db)).

Definition insert_postUpvote (now : Z) (postId : Z) (userId : string)
    : Tx unit :=
  exec (fun db =>
          let row :=
            PostUpvote.mk (fresh_id PostUpvote.id (postUpvotes db)) userId
                          postId now in
          (tt, set_postUpvotes (insert_row row) db)).

Definition insert_commentUpvote (now : Z) (commentId : Z) (userId : string)
    : Tx unit :=
  exec (fun db =>
          let row :=
            CommentUpvote.mk (fresh_id CommentUpvote.id (commentUpvoted db))
                             userId commentId now in
          (tt, set_commentUpvoted (insert_row row) db)).

Definition delete_postUpvotes (w : PostUpvote.t -> bool) : Tx unit :=
  exec (fun db => (tt, set_postUpvotes (delete_rows w) db)).

Definition delete_commentUpvotes (w : CommentUpvote.t -> bool) : Tx unit :=
  exec (fun db => (tt, set_commentUpvoted (delete_rows w) db)).

Definition incr (x : Z) : Z := x + 1.

(** ** commentsRouter *)

(** The transaction of [POST /:id] (reply to comment [id]). *)
Definition createReply_tx (now : Z) (u : User) (id : Z) (content : string)
    : Tx (list Comment.t) :=
  parentComment <-
    query (fun db =>
             first (sql_limit 1
                      (filter (fun c => Comment.id c =? id) (comments db)))) ;;
  match parentComment with
  | None => throw (mkHTTPException 404 "Comment not found")
  | Some parentComment =>
      let postId := Comment.postId parentComment in
      updateParentComment <-
        update_comments (fun c => Comment.id c =? Comment.id parentComment)
                        (Comment.set_commentCount incr) ;;
      updatedPost <-
        update_posts (fun p => Post.id p =? postId)
                     (Post.set_commentCount incr) ;;
      match first updateParentComment, first updatedPost with
      | Some _, Some _ =>
          insert_comment now
            (mkCommentValues content (user_id u) postId
                             (Some (Comment.id parentComment))
                             (Some (Comment.depth parentComment + 1)))
      | _, _ => throw (mkHTTPException 404 "Error creating comment")
      end
  end.

(** The body the create routes hand to [c.json]: the inserted row spread
    into a comment without votes or children, authored by the caller. *)
Definition created_comment (row : option Comment.t) (u : User)
    : option CommentNode :=
  option_map
    (fun c =>
       mkCommentNode
         (mkCommentItem c (Some (mkAuthor (user_username u) (user_id u))) [])
         [])
    row.

(** [c.json(body)] builds a response; it is the handler's answer only when
    the handler returns it. *)
Definition c_json {D : Type} (body : D) : D := body.

(** [POST /:id]: the handler calls [c.json] and lets its value go; the
    function ends without a return statement. *)
Definition commentsRouter_post (now : Z) (c_user : option User) (id : Z)
    (content : string) : Handler (SuccessResponse (option CommentNode)) :=
  loggedIn c_user (fun u db =>
    match db_transaction (createReply_tx now u id content) db with
    | (inl e, db') => (Throws e, db')
    | (inr rows, db') =>
        let comment := first rows in
        let _ := c_json (mkSuccess true "Comment craeted"
                                   (created_comment comment u)) in
        (Undefined, db')
    end).

(** The transaction of [POST /:id/upvote] on a comment: the new points and
    the value left in [pointsChange]. *)
Definition commentUpvote_tx (now : Z) (u : User) (id : Z) : Tx (Z * Z) :=
  existingUpvote <-
    query (fun db =>
             first (sql_limit 1
                      (filter (fun v => (CommentUpvote.commentId v =? id)
                                        && String.eqb (CommentUpvote.userId v)
                                                      (user_id u))
                              (commentUpvoted db)))) ;;
  let pointsChange := match existingUpvote with Some _ => -1 | None => 1 end in
  updated <-
    update_comments (fun c => Comment.id c =? id)
                    (Comment.set_points (fun p => p + pointsChange)) ;;
  match first updated with
  | None => throw (mkHTTPException 404 "Comment not found")
  | Some updated =>
      _ <- match existingUpvote with
           | Some e =>
               delete_commentUpvotes
                 (fun v => CommentUpvote.id v =? CommentUpvote.id e)
           | None => insert_commentUpvote now id (user_id u)
           end ;;
      ret (Comment.points updated, pointsChange)
  end.

Record CommentUpvoteData := mkCommentUpvoteData {
  cu_count : Z;
  cu_commentUpvotes : list string
}.

(** [POST /:id/upvote] on a comment. *)
Definition commentsRouter_upvote (now : Z) (c_user : option User) (id : Z)
    : Handler (SuccessResponse CommentUpvoteData) :=
  loggedIn c_user (fun u db =>
    match db_transaction (commentUpvote_tx now u id) db with
    | (inl e, db') => (Throws e, db')
    | (inr (points, pointsChange), db') =>
        (Responds
           (mkSuccess true "Comment updated"
              (mkCommentUpvoteData points
                 (if pointsChange =? 1 then [user_id u] else []))),
         db')
    end).

(** ** postRouter: writes *)

(** [POST /]: insert a post; counters take their defaults. *)
Definition postRouter_create (now : Z) (c_user : option User) (title : string)
    (content url : option string) : Handler (SuccessResponse (option Z)) :=
  loggedIn c_user (fun u db =>
    let row :=
      Post.mk (fresh_id Post.id (posts db)) (user_id u) title url content 0 0
              now in
    let post := first [row] in
    (Responds (mkSuccess true "Post created Successfully"
                         (option_map Post.id post)),
     set_posts (insert_row row) db)).

(** The transaction of [POST /:id/upvote] on a post.  The lookup of the
    existing vote goes through [db] rather than [tx]; no write precedes it,
    so it reads the store the transaction started from. *)
Definition postUpvote_tx (now : Z) (u : User) (id : Z) : Tx (Z * Z) :=
  existingUpvote <-
    query (fun db =>
             first (sql_limit 1
                      (filter (fun v => (PostUpvote.postId v =? id)
                                        && String.eqb (PostUpvote.userId v)
                                                      (user_id u))
                              (postUpvotes db)))) ;;
  let pointsChanges := match existingUpvote with Some _ => -1 | None => 1 end in
  updated <-
    update_posts (fun p => Post.id p =? id)
                 (Post.set_points (fun p => p + pointsChanges)) ;;
  match first updated with
  | None => throw (mkHTTPException 404 "Post not Found")
  | Some updated =>
      _ <- match existingUpvote with
           | Some e =>
               delete_postUpvotes (fun v => PostUpvote.id v =? PostUpvote.id e)
           | None => insert_postUpvote now id (user_id u)
           end ;;
      ret (Post.points updated, pointsChanges)
  end.

Record PostUpvoteData := mkPostUpvoteData {
  pu_count : Z;
  pu_isUpvoted : bool
}.

(** [POST /:id/upvote] on a post. *)
Definition postRouter_upvote (now : Z) (c_user : option User) (id : Z)
    : Handler (SuccessResponse PostUpvoteData) :=
  loggedIn c_user (fun u db =>
    match db_transaction (postUpvote_tx now u id) db with
    | (inl e, db') => (Throws e, db')
    | (inr (points, pointsChanges), db') =>
        (Responds
           (mkSuccess true "Post updated"
              (mkPostUpvoteData points (pointsChanges >? 0))),
         db')
    end).

(** The transaction of [POST /:id/comment] (top-level comment on post [id]). *)
Definition createComment_tx (now : Z) (u : User) (id : Z) (content : string)
    : Tx (list Comment.t) :=
  updated <-
    update_posts (fun p => Post.id p =? id) (Post.set_commentCount incr) ;;
  match first updated with
  | None => throw (mkHTTPException 404 "Post not found")
  | Some _ =>
      insert_comment now (mkCommentValues content (user_id u) id None None)
  end.

(** [POST /:id/comment]: as in [commentsRouter_post], [c.json] is called and
    not returned. *)
Definition postRouter_comment (now : Z) (c_user : option User) (id : Z)
    (content : string) : Handler (SuccessResponse (option CommentNode)) :=
  loggedIn c_user (fun u db =>
    match db_transaction (createComment_tx now u id content) db with
    | (inl e, db') => (Throws e, db')
    | (inr rows, db') =>
        let commnets := first rows in
        let _ := c_json (mkSuccess true "Comment craeted"
                                   (created_comment commnets u)) in
        (Undefined, db')
    end).

(** ** Reads: ordering, joins, counting *)

Section OrderBy.
Context {A : Type} (le : A -> A -> bool).

Fixpoint insert_sorted (x : A) (l : list A) : list A :=
  match l with
  | [] => [x]
  | y :: l' => if le x y then x :: l else y :: insert_sorted x l'
  end.

(** [ORDER BY]: rows that tie keep their storage order. *)
Definition order_by (rows : list A) : list A :=
  fold_right insert_sorted [] rows.
End OrderBy.

(** [order === "desc" ? desc(column) : asc(column)]. *)
Definition sortOrder {A : Type} (order : string) (column : A -> Z) (a b : A)
    : bool :=
  if String.eqb order "desc" then column b <=? column a
  else column a <=? column b.

(** [LEFT JOIN right ON on]. *)
Definition leftJoin {A B : Type} (on : A -> B -> bool) (right : list B)
    (left : list A) : list (A * option B) :=
  flat_map (fun a => match filter (on a) right with
                     | [] => [(a, None)]
                     | ms => map (fun b => (a, Some b)) ms
                     end) left.

(** [countDistinct(column)]. *)
Definition countDistinct {A : Type} (column : A -> Z) (rows : list A) : Z :=
  Z.of_nat (List.length (nodup Z.eq_dec (map column rows))).

(** ** JavaScript numbers of the pagination block *)

Definition of_Z (z : Z) : number := Some (inject_Z z).

(** [0 / limit]: zero for a non-zero [limit], NaN for [limit = 0]. *)
Definition zero_over (limit : Z) : number :=
  if limit =? 0 then None else Some 0%Q.

(** [a || b]: [a] unless it is falsy (0 or NaN). *)
Definition js_or (a b : number) : number :=
  match a with
  | Some q => if Qeq_bool q 0 then b else a
  | None => b
  end.

Definition Math_ceil (x : number) : number :=
  option_map (fun q => inject_Z (Qceiling q)) x.

(** [Math.ceil(count?.count || 0 / limit)]: division binds tighter than
    [||], so the quotient is [0 / limit]. *)
Definition total_pages (count limit : Z) : number :=
  Math_ceil (js_or (of_Z count) (zero_over limit)).

(** ** The validated query *)

(** Modelled from the spec: [paginationSchema] (shared/types is not among
    the sources): a page size, a 1-indexed page, a sort key and direction,
    optional author and site filters; the post comment listing adds the
    optional [includeChildren]. *)
Record PaginationQuery := mkQuery {
  limit : Z;
  q_page : Z;
  sortBy : string;
  order : string;
  author : option string;
  site : option string;
  includeChildren : option bool
}.

(** ** Relations loaded with a comment *)

(** [user?.id ?? ""]. *)
Definition viewer_id (c_user : option User) : string :=
  match c_user with Some u => user_id u | None => "" end.

(** The [author] relation, columns [username] and [id]. *)
Definition author_of (db : Db) (userId : string) : option Author :=
  option_map (fun u => mkAuthor (user_username u) (user_id u))
             (find (fun u => String.eqb (user_id u) userId) (user db)).

(** The [commentUpvotes] relation with
    [where: eq(commentsUpvoteTable.userId, uid), limit: 1]. *)
Definition commentUpvotes_of (db : Db) (uid : string) (c : Comment.t)
    : list string :=
  map CommentUpvote.userId
      (sql_limit 1
         (filter (fun v => (CommentUpvote.commentId v =? Comment.id c)
                           && String.eqb (CommentUpvote.userId v) uid)
                 (commentUpvoted db))).

Definition load_item (db : Db) (uid : string) (c : Comment.t) : CommentItem :=
  mkCommentItem c (author_of db (Comment.userId c)) (commentUpvotes_of db uid c).

Definition comment_sortByColumn (sortBy : string) : Comment.t -> Z :=
  if String.eqb sortBy "points" then Comment.points else Comment.createdAt.

Definition is_child_of (id : Z) (c : Comment.t) : bool :=
  eq_nullable (Comment.parentCommentId c) id.

(** ** commentsRouter: [GET /:id/comments] *)

Definition commentsRouter_comments (c_user : option User) (id : Z)
    (q : PaginationQuery) : Handler (paginatedResponse (list CommentItem)) :=
  fun db =>
    let offset := (q_page q - 1) * limit q in
    let sortByColumn := comment_sortByColumn (sortBy q) in
    let sortOrder := sortOrder (order q) sortByColumn in
    let count :=
      countDistinct Comment.id (filter (is_child_of id) (comments db)) in
    let comments :=
      map (load_item db (viewer_id c_user))
          (sql_limit (limit q)
             (sql_offset offset
                (order_by sortOrder (filter (is_child_of id) (comments db)))))
    in
    (Responds (mkPaginated true "Comments fetched" comments (q_page q)
                           (total_pages count (limit q))),
     db).

(** ** postRouter: reads *)

(** [and(author ? eq(userId, author) : undefined,
         site ? eq(url, site) : undefined)]: an empty string is falsy. *)
Definition posts_where (author site : option string) (p : Post.t) : bool :=
  match author with
  | Some a => if String.eqb a "" then true else String.eqb (Post.userId p) a
  | None => true
  end
  &&
  match site with
  | Some s =>
      if String.eqb s "" then true
      else match Post.url p with
           | Some u => String.eqb u s
           | None => false
           end
  | None => true
  end.

Definition post_sortByColumn (sortBy : string) : Post.t -> Z :=
  if String.eqb sortBy "points" then Post.points else Post.createdAt.

Definition PostRow : Type := Post.t * option User * option PostUpvote.t.

(** [FROM posts LEFT JOIN user], and [LEFT JOIN post_upvote] when a user is
    resolved. *)
Definition post_rows (c_user : option User) (db : Db) : list PostRow :=
  let joined :=
    leftJoin (fun p u => String.eqb (Post.userId p) (user_id u)) (user db)
             (posts db) in
  match c_user with
  | Some u =>
      leftJoin (fun (r : Post.t * option User) v =>
                  (PostUpvote.postId v =? Post.id (fst r))
                  && String.eqb (PostUpvote.userId v) (user_id u))
               (postUpvotes db) joined
  | None => map (fun r => (r, None)) joined
  end.

(** The selection: the post's columns, [author], and [isUpvoted], which is
    the CASE on the joined vote for a resolved user and the literal
    [false] otherwise. *)
Definition project_post (c_user : option User) (r : PostRow) : PostItem :=
  let '(p, a, v) := r in
  mkPostItem p
    (option_map (fun u => mkAuthor (user_username u) (user_id u)) a)
    (match c_user with
     | Some _ => negb (isNull v)
     | None => false
     end).

(** [GET /]. *)
Definition postRouter_list (c_user : option User) (q : PaginationQuery)
    : Handler (paginatedResponse (list PostItem)) :=
  fun db =>
    let offset := (q_page q - 1) * limit q in
    let sortByColumn := post_sortByColumn (sortBy q) in
    let sortOrder := sortOrder (order q) sortByColumn in
    let count :=
      countDistinct Post.id
        (filter (posts_where (author q) (site q)) (posts db)) in
    let posts :=
      map (project_post c_user)
          (sql_limit (limit q)
             (sql_offset offset
                (order_by (fun a b : PostRow =>
                             sortOrder (fst (fst a)) (fst (fst b)))
                   (filter (fun r : PostRow =>
                              posts_where (author q) (site q) (fst (fst r)))
                           (post_rows c_user db))))) in
    (Responds (mkPaginated true "Post's Fetched Successfully" posts (q_page q)
                           (total_pages count (limit q))),
     db).

(** The relational query of [GET /:id/comments] on a post: top-level
    comments with author, the viewer's vote and the previewed children. *)
Definition post_comments (db : Db) (c_user : option User) (id : Z)
    (q : PaginationQuery) : list CommentNode :=
  let offset := (q_page q - 1) * limit q in
  let sortByColumn := comment_sortByColumn (sortBy q) in
  let sortOrder := sortOrder (order q) sortByColumn in
  map (fun c =>
         mkCommentNode
           (load_item db (viewer_id c_user) c)
           (map (load_item db (viewer_id c_user))
                (sql_limit
                   (match includeChildren q with Some true => 2 | _ => 0 end)
                   (order_by sortOrder
                      (filter (is_child_of (Comment.id c)) (comments db))))))
      (sql_limit (limit q)
         (sql_offset offset
            (order_by sortOrder
               (filter (fun c => (Comment.postId c =? id)
                                 && isNull (Comment.parentCommentId c))
                       (comments db))))).

(** [GET /:id/comments] on a post.  The guard is [if (postExists)]. *)
Definition postRouter_comments (c_user : option User) (id : Z)
    (q : PaginationQuery) : Handler (paginatedResponse (list CommentNode)) :=
  fun db =>
    let postExists :=
      first (sql_limit 1
               (map (fun _ => 1) (filter (fun p => Post.id p =? id) (posts db))))
    in
    match postExists with
    | Some _ => (Throws (mkHTTPException 404 "Post not found"), db)
    | None =>
        let counts :=
          countDistinct Comment.id
            (filter (fun c => (Comment.postId c =? id)
                              && isNull (Comment.parentCommentId c))
                    (comments db)) in
        (Responds (mkPaginated true "Comments Fetched"
                               (post_comments db c_user id q) (q_page q)
                               (total_pages counts (limit q))),
         db)
    end.

(** [GET /:id] on a post. *)
Definition postRouter_get (c_user : option User) (id : Z)
    : Handler (SuccessResponse PostItem) :=
  fun db =>
    let rows :=
      filter (fun r : PostRow => Post.id (fst (fst r)) =? id)
             (post_rows c_user db) in
    match first (map (project_post c_user) rows) with
    | None => (Throws (mkHTTPException 404 "Post not found"), db)
    | Some post => (Responds (mkSuccess true "Post Fetched" post), db)
    end.

(** ** Vocabulary of the properties *)

Definition find_post (db : Db) (id : Z) : option Post.t :=
  find (fun p => Post.id p =? id) (posts db).

Definition find_comment (db : Db) (id : Z) : option Comment.t :=
  find (fun c => Comment.id c =? id) (comments db).

(** The PostUpvote rows of user [uid] on post [id]. *)
Definition is_post_vote (uid : string) (id : Z) (v : PostUpvote.t) : bool :=
  (PostUpvote.postId v =? id) && String.eqb (PostUpvote.userId v) uid.

Definition post_votes (db : Db) (uid : string) (id : Z) : list PostUpvote.t :=
  filter (is_post_vote uid id) (postUpvotes db).

(** The CommentUpvote rows of user [uid] on comment [id]. *)
Definition is_comment_vote (uid : string) (id : Z) (v : CommentUpvote.t)
    : bool :=
  (CommentUpvote.commentId v =? id) && String.eqb (CommentUpvote.userId v) uid.

Definition comment_votes (db : Db) (uid : string) (id : Z)
    : list CommentUpvote.t :=
  filter (is_comment_vote uid id) (commentUpvoted db).

(** Existence of the row is the "upvoted" state. *)
Definition post_upvoted (db : Db) (uid : string) (id : Z) : bool :=
  existsb (is_post_vote uid id) (postUpvotes db).

Definition comment_upvoted (db : Db) (uid : string) (id : Z) : bool :=
  existsb (is_comment_vote uid id) (commentUpvoted db).


(** At most one vote row per (user, post) and per (user, comment). *)
Definition upvotes_unique (db : Db) : Prop :=
  (forall uid id, (List.length (post_votes db uid id) <= 1)%nat) /\
  (forall uid id, (List.length (comment_votes db uid id) <= 1)%nat).


Definition NotFound (msg : string) : HTTPException := mkHTTPException 404 msg.

(** The items of a paginated reply (none when the handler threw). *)
Definition items_of {X : Type} (r : Reply (paginatedResponse (list X)))
    : list X :=
  match r with
  | Responds p => p_data p
  | _ => []
  end.


(** The vote annotation of comment [id] for the user id [uid]: the user id
    once when that user's vote row exists, nothing otherwise. *)
Definition vote_annotation (db : Db) (uid : string) (id : Z) : list string :=
  if comment_upvoted db uid id then [uid] else [].


(** The [totalPages] of a paginated reply. *)
Definition pages_of {X : Type} (r : Reply (paginatedResponse X))
    : option number :=
  match r with
  | Responds p => Some (totalPages p)
  | _ => None
  end.

(** The pagination contract in the spec's words:
    [totalPages = ceil(totalCount / limit)]. *)
Definition spec_totalPages (totalCount limit : Z) : Z :=
  Qceiling (inject_Z totalCount / inject_Z limit).

(** ** The core operations as a transition system *)

Inductive Op :=
| CreatePost (now : Z) (c_user : option User) (title : string)
             (content url : option string)
| CreateTopLevelComment (now : Z) (c_user : option User) (postId : Z)
                        (content : string)
| CreateReply (now : Z) (c_user : option User) (parentCommentId : Z)
              (content : string)
| TogglePostUpvote (now : Z) (c_user : option User) (postId : Z)
| ToggleCommentUpvote (now : Z) (c_user : option User) (commentId : Z)
| GetPost (c_user : option User) (postId : Z)
| ListPosts (c_user : option User) (q : PaginationQuery)
| ListPostComments (c_user : option User) (postId : Z) (q : PaginationQuery)
| ListChildren (c_user : option User) (commentId : Z) (q : PaginationQuery).

(** The store an operation leaves. *)
Definition step (db : Db) (op : Op) : Db :=
  match op with
  | CreatePost now u title content url =>
      snd (postRouter_create now u title content url db)
  | CreateTopLevelComment now u id content =>
      snd (postRouter_comment now u id content db)
  | CreateReply now u id content =>
      snd (commentsRouter_post now u id content db)
  | TogglePostUpvote now u id => snd (postRouter_upvote now u id db)
  | ToggleCommentUpvote now u id => snd (commentsRouter_upvote now u id db)
  | GetPost u id => snd (postRouter_get u id db)
  | ListPosts u q => snd (postRouter_list u q db)
  | ListPostComments u id q => snd (postRouter_comments u id q db)
  | ListChildren u id q => snd (commentsRouter_comments u id q db)
  end.

Definition run (ops : list Op) (db : Db) : Db := fold_left step ops db.

(** ** Sample stores *)

Definition alice : User := mkUser "u-alice-0000001" "alice".
Definition bob : User := mkUser "u-bob-000000002" "bob".

(** One post by alice, nothing else. *)
Definition db_post : Db :=
  mkDb [alice; bob] [Post.mk 1 (user_id alice) "hello" None None 0 0 100]
       [] [] [].

(** [db_post] after a top-level comment (id 1) and three replies to it. *)
Definition db_thread : Db :=
  mkDb [alice; bob]
       [Post.mk 1 (user_id alice) "hello" None None 0 4 100]
       [Comment.mk 1 (user_id bob) 1 None "first" 110 0 3 0;
        Comment.mk 2 (user_id alice) 1 (Some 1) "reply a" 120 1 0 5;
        Comment.mk 3 (user_id bob) 1 (Some 1) "reply b" 130 1 0 7;
        Comment.mk 4 (user_id alice) 1 (Some 1) "reply c" 140 1 0 6]
       [] [].

(** [db_thread] after alice upvoted post 1 and comment 2. *)
Definition db_voted : Db :=
  mkDb [alice; bob]
       [Post.mk 1 (user_id alice) "hello" None None 1 4 100]
       [Comment.mk 1 (user_id bob) 1 None "first" 110 0 3 0;
        Comment.mk 2 (user_id alice) 1 (Some 1) "reply a" 120 1 0 6;
        Comment.mk 3 (user_id bob) 1 (Some 1) "reply b" 130 1 0 7;
        Comment.mk 4 (user_id alice) 1 (Some 1) "reply c" 140 1 0 6]
       [PostUpvote.mk 1 (user_id alice) 1 150]
       [CommentUpvote.mk 1 (user_id alice) 2 160].

(** Post 1 with two vote rows of alice: a store the uniqueness invariant
    excludes (the schema declares no unique constraint on the pair). *)
Definition db_duplicate_votes : Db :=
  mkDb [alice; bob]
       [Post.mk 1 (user_id alice) "hello" None None 2 0 100]
       []
       [PostUpvote.mk 1 (user_id alice) 1 150;
        PostUpvote.mk 2 (user_id alice) 1 151]
       [].

(** A comment whose [postId] names no row of the posts table (the schema
    declares no foreign key). *)
Definition db_dangling : Db :=
  mkDb [alice; bob] []
       [Comment.mk 1 (user_id bob) 9 None "first" 110 0 1 0;
        Comment.mk 2 (user_id alice) 9 (Some 1) "reply a" 120 1 0 5;
        Comment.mk 3 (user_id bob) 9 (Some 1) "reply b" 130 1 0 7;
        Comment.mk 4 (user_id alice) 9 (Some 1) "reply c" 140 1 0 6]
       [] [CommentUpvote.mk 1 (user_id alice) 3 160].


Definition by_points_desc : PaginationQuery :=
  mkQuery 2 1 "points" "desc" None None (Some true).

(** ** authRouter: [GET /user] *)

(** The one route of [authRouter] that touches neither the session store
    nor the password hasher: it answers the resolved user's name. *)
Definition authRouter_user (c_user : option User)
    : Handler (SuccessResponse string) :=
  loggedIn c_user (fun u db =>
    (Responds (mkSuccess true "User Fetched Successfully" (user_username u)),
     db)).

(** ** Vocabulary of the further properties *)

(** The identity an operation is invoked with. *)
Definition op_user (op : Op) : option User :=
  match op with
  | CreatePost _ u _ _ _ => u
  | CreateTopLevelComment _ u _ _ => u
  | CreateReply _ u _ _ => u
  | TogglePostUpvote _ u _ => u
  | ToggleCommentUpvote _ u _ => u
  | GetPost u _ => u
  | ListPosts u _ => u
  | ListPostComments u _ _ => u
  | ListChildren u _ _ => u
  end.

(** The same query for another page. *)
Definition with_page (q : PaginationQuery) (p : Z) : PaginationQuery :=
  mkQuery (limit q) p (sortBy q) (order q) (author q) (site q)
          (includeChildren q).




(** Live counts behind the denormalised counters. *)
Definition post_comment_total (db : Db) (postId : Z) : Z :=
  Z.of_nat (List.length
              (filter (fun c => Comment.postId c =? postId) (comments db))).

Definition child_total (db : Db) (commentId : Z) : Z :=
  Z.of_nat (List.length (filter (is_child_of commentId) (comments db))).

Definition post_vote_total (db : Db) (postId : Z) : Z :=
  Z.of_nat (List.length
              (filter (fun v => PostUpvote.postId v =? postId)
                      (postUpvotes db))).

Definition comment_vote_total (db : Db) (commentId : Z) : Z :=
  Z.of_nat (List.length
              (filter (fun v => CommentUpvote.commentId v =? commentId)
                      (commentUpvoted db))).

(** Every comment names an existing post and, when it has one, an
    existing parent comment. *)
Definition comments_refer (db : Db) : Prop :=
  (forall c, In c (comments db) -> find_post db (Comment.postId c) <> None)
  /\ (forall c pid,
         In c (comments db) -> Comment.parentCommentId c = Some pid ->
         find_comment db pid <> None).

(** [commentCount] of a post is the number of its comments, replies
    included; [commentCount] of a comment is the number of its direct
    children. *)
Definition counters_consistent (db : Db) : Prop :=
  (forall p, In p (posts db) ->
             Post.commentCount p = post_comment_total db (Post.id p))
  /\ (forall c, In c (comments db) ->
                Comment.commentCount c = child_total db (Comment.id c))
  /\ comments_refer db.

(** The primary keys of the four tables the routes write. *)
Definition keys_unique (db : Db) : Prop :=
  NoDup (map Post.id (posts db))
  /\ NoDup (map Comment.id (comments db))
  /\ NoDup (map PostUpvote.id (postUpvotes db))
  /\ NoDup (map CommentUpvote.id (commentUpvoted db)).

(** Every vote row names an existing post or comment. *)
Definition votes_refer (db : Db) : Prop :=
  (forall v, In v (postUpvotes db) ->
             find_post db (PostUpvote.postId v) <> None)
  /\ (forall v, In v (commentUpvoted db) ->
                find_comment db (CommentUpvote.commentId v) <> None).

(** [points] of a post or comment is the number of vote rows on it. *)
Definition points_consistent (db : Db) : Prop :=
  (forall p, In p (posts db) ->
             Post.points p = post_vote_total db (Post.id p))
  /\ (forall c, In c (comments db) ->
                Comment.points c = comment_vote_total db (Comment.id c))
  /\ votes_refer db
  /\ NoDup (map PostUpvote.id (postUpvotes db))
  /\ NoDup (map CommentUpvote.id (commentUpvoted db)).

(** The shape of a thread: a comment without parent has depth 0; a reply
    names an older comment of the same post, one level above it. *)
Definition thread_wellformed (db : Db) : Prop :=
  forall c, In c (comments db) ->
    match Comment.parentCommentId c with
    | None => Comment.depth c = 0
    | Some pid =>
        pid < Comment.id c
        /\ exists parent,
            find_comment db pid = Some parent
            /\ Comment.depth c = Comment.depth parent + 1
            /\ Comment.postId c = Comment.postId parent
    end.

(** The stores one request can leave behind: the store unchanged (a read,
    a refused or failed request), or the writes of one committed route. *)
Inductive Written (db : Db) : Db -> Prop :=
| Written_nothing : Written db db
| Written_post now u title content url :
    Written db
      (set_posts
         (insert_row (Post.mk (fresh_id Post.id (posts db)) (user_id u) title
                              url content 0 0 now)) db)
| Written_comment now u id content post :
    find_post db id = Some post ->
    Written db
      (set_comments
         (insert_row (Comment.mk (fresh_id Comment.id (comments db))
                                 (user_id u) id None content now 0 0 0))
         (set_posts (update_rows (fun p => Post.id p =? id)
                                 (Post.set_commentCount incr)) db))
| Written_reply now u id content parent post :
    find_comment db id = Some parent ->
    find_post db (Comment.postId parent) = Some post ->
    Written db
      (set_comments
         (insert_row (Comment.mk (fresh_id Comment.id (comments db))
                                 (user_id u) (Comment.postId parent) (Some id)
                                 content now (Comment.depth parent + 1) 0 0))
         (set_posts
            (update_rows (fun p => Post.id p =? Comment.postId parent)
                         (Post.set_commentCount incr))
            (set_comments
               (update_rows (fun c => Comment.id c =? id)
                            (Comment.set_commentCount incr)) db)))
| Written_post_vote now u id post :
    find_post db id = Some post ->
    find (is_post_vote (user_id u) id) (postUpvotes db) = None ->
    Written db
      (set_postUpvotes
         (insert_row (PostUpvote.mk (fresh_id PostUpvote.id (postUpvotes db))
                                    (user_id u) id now))
         (set_posts (update_rows (fun p => Post.id p =? id)
                                 (Post.set_points (fun x => x + 1))) db))
| Written_post_unvote u id post e :
    find_post db id = Some post ->
    find (is_post_vote (user_id u) id) (postUpvotes db) = Some e ->
    Written db
      (set_postUpvotes
         (delete_rows (fun v => PostUpvote.id v =? PostUpvote.id e))
         (set_posts (update_rows (fun p => Post.id p =? id)
                                 (Post.set_points (fun x => x + -1))) db))
| Written_comment_vote now u id c :
    find_comment db id = Some c ->
    find (is_comment_vote (user_id u) id) (commentUpvoted db) = None ->
    Written db
      (set_commentUpvoted
         (insert_row (CommentUpvote.mk
                        (fresh_id CommentUpvote.id (commentUpvoted db))
                        (user_id u) id now))
         (set_comments (update_rows (fun c => Comment.id c =? id)
                                    (Comment.set_points (fun x => x + 1)))
                       db))
| Written_comment_unvote u id c e :
    find_comment db id = Some c ->
    find (is_comment_vote (user_id u) id) (commentUpvoted db) = Some e ->
    Written db
      (set_commentUpvoted
         (delete_rows (fun v => CommentUpvote.id v =? CommentUpvote.id e))
         (set_comments (update_rows (fun c => Comment.id c =? id)
                                    (Comment.set_points (fun x => x + -1)))
                       db)).

(** * Properties *)

(** ** Tables *)

Section TableFacts.
Context {A : Type}.
Implicit Types (w : A -> bool) (f : A -> A) (rows : list A).

Lemma first_limit_one rows : first (sql_limit 1 rows) = first rows.
Proof. destruct rows; reflexivity. Qed.

Lemma first_filter w rows : first (filter w rows) = find w rows.
Proof.
  induction rows as [|r rows IH]; simpl; [reflexivity|].
  destruct (w r); [reflexivity | exact IH].
Qed.

Lemma select_one w rows : first (sql_limit 1 (filter w rows)) = find w rows.
Proof. rewrite first_limit_one. apply first_filter. Qed.

Lemma first_returning w f rows :
  first (returning w f rows) = option_map f (find w rows).
Proof.
  unfold returning, first. rewrite <- first_filter.
  destruct (filter w rows); reflexivity.
Qed.

Lemma find_none_filter w rows : find w rows = None -> filter w rows = [].
Proof.
  induction rows as [|r rows IH]; simpl; [reflexivity|].
  destruct (w r); [discriminate | exact IH].
Qed.

Lemma find_some_filter w rows r :
  find w rows = Some r -> exists rest, filter w rows = r :: rest.
Proof.
  rewrite <- first_filter. destruct (filter w rows) as [|x rest]; simpl.
  - discriminate.
  - intros [= ->]. now exists rest.
Qed.

Lemma find_existsb w rows :
  existsb w rows = match find w rows with Some _ => true | None => false end.
Proof.
  induction rows as [|r rows IH]; simpl; [reflexivity|].
  destruct (w r); [reflexivity | exact IH].
Qed.

(** Looking a row up by a predicate the update respects. *)
Lemma find_update_same w f rows :
  (forall r, w (f r) = w r) ->
  find w (update_rows w f rows) = option_map f (find w rows).
Proof.
  intros Hw. induction rows as [|r rows IH]; simpl; [reflexivity|].
  destruct (w r) eqn:E.
  - now rewrite Hw, E.
  - now rewrite E.
Qed.

Lemma fresh_id_above (key : A -> Z) rows r :
  In r rows -> key r < fresh_id key rows.
Proof.
  unfold fresh_id. induction rows as [|x rows IH]; cbn [fold_right In];
    [tauto|].
  intros [->|Hin]; [lia|]. specialize (IH Hin). lia.
Qed.

Lemma find_fresh (key : A -> Z) rows :
  find (fun r => key r =? fresh_id key rows) rows = None.
Proof.
  destruct (find _ rows) as [r|] eqn:E; [|reflexivity].
  apply find_some in E as [Hin Heq]. apply Z.eqb_eq in Heq.
  pose proof (fresh_id_above key rows r Hin). lia.
Qed.

Lemma find_app_none w rows r :
  find w rows = None ->
  find w (insert_row r rows) = if w r then Some r else None.
Proof.
  unfold insert_row. induction rows as [|x rows IH]; simpl; [reflexivity|].
  destruct (w x); [discriminate | exact IH].
Qed.

Lemma find_app_some w rows r x :
  find w rows = Some x -> find w (insert_row r rows) = Some x.
Proof.
  unfold insert_row. induction rows as [|y rows IH]; simpl; [discriminate|].
  destruct (w y); [trivial | exact IH].
Qed.

Lemma filter_delete_le w w' rows :
  (List.length (filter w' (delete_rows w rows))
   <= List.length (filter w' rows))%nat.
Proof.
  unfold delete_rows. induction rows as [|r rows IH]; simpl; [lia|].
  destruct (w r); simpl; destruct (w' r); simpl; lia.
Qed.

Lemma filter_insert w rows r :
  filter w (insert_row r rows)
  = (filter w rows ++ (if w r then [r] else []))%list.
Proof. unfold insert_row. rewrite filter_app. reflexivity. Qed.

End TableFacts.

(** ** The transactions, run *)

Lemma postUpvote_tx_run now u id db :
  postUpvote_tx now u id db =
  let existing := find (is_post_vote (user_id u) id) (postUpvotes db) in
  let d := match existing with Some _ => -1 | None => 1 end in
  match find_post db id with
  | None => inl (NotFound "Post not Found")
  | Some p =>
      inr ((Post.points p + d, d),
           set_postUpvotes
             (match existing with
              | Some e =>
                  delete_rows (fun v => PostUpvote.id v =? PostUpvote.id e)
              | None =>
                  insert_row
                    (PostUpvote.mk (fresh_id PostUpvote.id (postUpvotes db))
                                   (user_id u) id now)
              end)
             (set_posts
                (update_rows (fun p => Post.id p =? id)
                             (Post.set_points (fun x => x + d))) db))
  end.
Proof.
  unfold postUpvote_tx, bind, query, update_posts, exec, find_post. cbn zeta.
  rewrite select_one. fold (is_post_vote (user_id u) id).
  rewrite first_returning.
  destruct (find (is_post_vote (user_id u) id) (postUpvotes db));
    destruct (find (fun p => Post.id p =? id) (posts db)); reflexivity.
Qed.

Lemma commentUpvote_tx_run now u id db :
  commentUpvote_tx now u id db =
  let existing := find (is_comment_vote (user_id u) id) (commentUpvoted db) in
  let d := match existing with Some _ => -1 | None => 1 end in
  match find_comment db id with
  | None => inl (NotFound "Comment not found")
  | Some c =>
      inr ((Comment.points c + d, d),
           set_commentUpvoted
             (match existing with
              | Some e =>
                  delete_rows
                    (fun v => CommentUpvote.id v =? CommentUpvote.id e)
              | None =>
                  insert_row
                    (CommentUpvote.mk
                       (fresh_id CommentUpvote.id (commentUpvoted db))
                       (user_id u) id now)
              end)
             (set_comments
                (update_rows (fun c => Comment.id c =? id)
                             (Comment.set_points (fun x => x + d))) db))
  end.
Proof.
  unfold commentUpvote_tx, bind, query, update_comments, exec, find_comment.
  cbn zeta. rewrite select_one. fold (is_comment_vote (user_id u) id).
  rewrite first_returning.
  destruct (find (is_comment_vote (user_id u) id) (commentUpvoted db));
    destruct (find (fun c => Comment.id c =? id) (comments db)); reflexivity.
Qed.

(** ** Upvote toggling *)



Lemma find_post_set_points db id d p :
  find_post db id = Some p ->
  find (fun p => Post.id p =? id)
       (update_rows (fun p => Post.id p =? id)
                    (Post.set_points (fun x => x + d)) (posts db))
  = Some (Post.set_points (fun x => x + d) p).
Proof.
  intros H. rewrite find_update_same by reflexivity.
  unfold find_post in H. now rewrite H.
Qed.

Lemma find_comment_set_points db id d c :
  find_comment db id = Some c ->
  find (fun c => Comment.id c =? id)
       (update_rows (fun c => Comment.id c =? id)
                    (Comment.set_points (fun x => x + d)) (comments db))
  = Some (Comment.set_points (fun x => x + d) c).
Proof.
  intros H. rewrite find_update_same by reflexivity.
  unfold find_comment in H. now rewrite H.
Qed.



(** C4.  A toggle on an id that names no post (no comment) throws NotFound
    and leaves the store as it was. *)
Theorem toggleUpvote_missing_entity :
  (forall now db u id,
      find_post db id = None ->
      postRouter_upvote now (Some u) id db
      = (Throws (NotFound "Post not Found"), db))
  /\
  (forall now db u id,
      find_comment db id = None ->
      commentsRouter_upvote now (Some u) id db
      = (Throws (NotFound "Comment not found"), db)).
Proof.
  split; intros now db u id Hnone.
  - unfold postRouter_upvote, loggedIn, db_transaction.
    rewrite postUpvote_tx_run, Hnone. reflexivity.
  - unfold commentsRouter_upvote, loggedIn, db_transaction.
    rewrite commentUpvote_tx_run, Hnone. reflexivity.
Qed.

(** C4 on the sample store: neither post 7 nor comment 7 exists. *)
Lemma toggleUpvote_missing_entity_witness :
  postRouter_upvote 200 (Some alice) 7 db_voted
  = (Throws (NotFound "Post not Found"), db_voted)
  /\ commentsRouter_upvote 200 (Some alice) 7 db_voted
     = (Throws (NotFound "Comment not found"), db_voted).
Proof.
  split.
  - apply (proj1 toggleUpvote_missing_entity 200 db_voted alice 7).
    reflexivity.
  - apply (proj2 toggleUpvote_missing_entity 200 db_voted alice 7).
    reflexivity.
Defined.

Lemma filter_filter_swap {A : Type} (f g : A -> bool) (l : list A) :
  filter f (filter g l) = filter g (filter f l).
Proof.
  induction l as [|x l IH]; simpl; [reflexivity|].
  destruct (f x) eqn:Ef, (g x) eqn:Eg; simpl;
    rewrite ?Ef, ?Eg, IH; reflexivity.
Qed.

(** Once the only matching row is deleted by its key, none matches. *)
Lemma find_delete_unique {A : Type} (key : A -> Z) (w : A -> bool)
    (rows : list A) (e : A) :
  (List.length (filter w rows) <= 1)%nat ->
  find w rows = Some e ->
  find w (delete_rows (fun x => key x =? key e) rows) = None.
Proof.
  intros Hone Hfind. apply find_some_filter in Hfind as [rest Hf].
  rewrite Hf in Hone. destruct rest; [|simpl in Hone; lia].
  rewrite <- first_filter. unfold delete_rows.
  rewrite filter_filter_swap, Hf. simpl. now rewrite Z.eqb_refl.
Qed.

Lemma is_post_vote_refl uid id i now :
  is_post_vote uid id (PostUpvote.mk i uid id now) = true.
Proof. unfold is_post_vote. simpl. now rewrite Z.eqb_refl, String.eqb_refl. Qed.

Lemma is_comment_vote_refl uid id i now :
  is_comment_vote uid id (CommentUpvote.mk i uid id now) = true.
Proof.
  unfold is_comment_vote. simpl. now rewrite Z.eqb_refl, String.eqb_refl.
Qed.

Lemma post_points_back (p : Post.t) (a b : Z) :
  a + b = 0 ->
  Post.set_points (fun x => x + b) (Post.set_points (fun x => x + a) p) = p.
Proof.
  intros H. destruct p as [i u t l c pts n ts]. unfold Post.set_points.
  simpl. f_equal. lia.
Qed.

Lemma comment_points_back (c : Comment.t) (a b : Z) :
  a + b = 0 ->
  Comment.set_points (fun x => x + b) (Comment.set_points (fun x => x + a) c)
  = c.
Proof.
  intros H. destruct c as [i u p par t ts d n pts]. unfold Comment.set_points.
  simpl. f_equal. lia.
Qed.

(** C3, as the code has it.  Where the caller holds at most one vote row on
    an existing post or comment, two toggles in a row leave the row of the
    entity, points included, as it was, and the second toggle reports the
    vote state the caller started from. *)
Theorem toggleUpvote_twice_restores :
  (forall now1 now2 db u id p,
      find_post db id = Some p ->
      (List.length (post_votes db (user_id u) id) <= 1)%nat ->
      exists r1 db1 db2,
        postRouter_upvote now1 (Some u) id db = (r1, db1)
        /\ postRouter_upvote now2 (Some u) id db1
           = (Responds
                (mkSuccess true "Post updated"
                   (mkPostUpvoteData (Post.points p)
                                     (post_upvoted db (user_id u) id))), db2)
        /\ find_post db2 id = Some p)
  /\
  (forall now1 now2 db u id c,
      find_comment db id = Some c ->
      (List.length (comment_votes db (user_id u) id) <= 1)%nat ->
      exists r1 db1 db2,
        commentsRouter_upvote now1 (Some u) id db = (r1, db1)
        /\ commentsRouter_upvote now2 (Some u) id db1
           = (Responds
                (mkSuccess true "Comment updated"
                   (mkCommentUpvoteData
                      (Comment.points c)
                      (if comment_upvoted db (user_id u) id
                       then [user_id u] else []))), db2)
        /\ find_comment db2 id = Some c).
Proof.
  split.
  - intros now1 now2 db u id p Hp Hone.
    unfold postRouter_upvote, loggedIn, db_transaction, post_upvoted.
    rewrite postUpvote_tx_run, find_existsb, Hp. cbn zeta.
    destruct (find (is_post_vote (user_id u) id) (postUpvotes db))
      as [e|] eqn:E.
    + do 3 eexists. split; [reflexivity|].
      rewrite postUpvote_tx_run. unfold find_post. cbn [posts postUpvotes
        set_postUpvotes set_posts]. rewrite (find_post_set_points _ _ _ _ Hp).
      rewrite (find_delete_unique PostUpvote.id _ _ e Hone E). cbn zeta.
      split.
      * do 3 f_equal. simpl. f_equal. lia.
      * cbn [posts set_postUpvotes set_posts].
        rewrite find_update_same by reflexivity.
        rewrite (find_post_set_points _ _ _ _ Hp). simpl.
        f_equal. apply post_points_back. reflexivity.
    + do 3 eexists. split; [reflexivity|].
      rewrite postUpvote_tx_run. unfold find_post. cbn [posts postUpvotes
        set_postUpvotes set_posts]. rewrite (find_post_set_points _ _ _ _ Hp).
      rewrite !(find_app_none _ _ _ E).
      rewrite is_post_vote_refl. cbn zeta.
      split.
      * do 3 f_equal. simpl. f_equal. lia.
      * cbn [posts set_postUpvotes set_posts].
        rewrite find_update_same by reflexivity.
        rewrite (find_post_set_points _ _ _ _ Hp). simpl.
        f_equal. apply post_points_back. reflexivity.
  - intros now1 now2 db u id c Hc Hone.
    unfold commentsRouter_upvote, loggedIn, db_transaction, comment_upvoted.
    rewrite commentUpvote_tx_run, find_existsb, Hc. cbn zeta.
    destruct (find (is_comment_vote (user_id u) id) (commentUpvoted db))
      as [e|] eqn:E.
    + do 3 eexists. split; [reflexivity|].
      rewrite commentUpvote_tx_run. unfold find_comment.
      cbn [comments commentUpvoted set_commentUpvoted set_comments].
      rewrite (find_comment_set_points _ _ _ _ Hc).
      rewrite (find_delete_unique CommentUpvote.id _ _ e Hone E). cbn zeta.
      split.
      * do 3 f_equal. simpl. f_equal. lia.
      * cbn [comments set_commentUpvoted set_comments].
        rewrite find_update_same by reflexivity.
        rewrite (find_comment_set_points _ _ _ _ Hc). simpl.
        f_equal. apply comment_points_back. reflexivity.
    + do 3 eexists. split; [reflexivity|].
      rewrite commentUpvote_tx_run. unfold find_comment.
      cbn [comments commentUpvoted set_commentUpvoted set_comments].
      rewrite (find_comment_set_points _ _ _ _ Hc).
      rewrite !(find_app_none _ _ _ E).
      rewrite is_comment_vote_refl. cbn zeta.
      split.
      * do 3 f_equal. simpl. f_equal. lia.
      * cbn [comments set_commentUpvoted set_comments].
        rewrite find_update_same by reflexivity.
        rewrite (find_comment_set_points _ _ _ _ Hc). simpl.
        f_equal. apply comment_points_back. reflexivity.
Qed.

(** C3 on the sample store: alice, who holds a vote on post 1, toggles
    twice; bob, who holds none on comment 3, toggles twice. *)
Lemma toggleUpvote_twice_restores_witness :
  (exists r1 db1 db2,
      postRouter_upvote 201 (Some alice) 1 db_voted = (r1, db1)
      /\ postRouter_upvote 202 (Some alice) 1 db1
         = (Responds (mkSuccess true "Post updated" (mkPostUpvoteData 1 true)),
            db2)
      /\ find_post db2 1
         = Some (Post.mk 1 (user_id alice) "hello" None None 1 4 100))
  /\
  (exists r1 db1 db2,
      commentsRouter_upvote 201 (Some bob) 3 db_voted = (r1, db1)
      /\ commentsRouter_upvote 202 (Some bob) 3 db1
         = (Responds (mkSuccess true "Comment updated"
                                (mkCommentUpvoteData 7 [])), db2)
      /\ find_comment db2 3
         = Some (Comment.mk 3 (user_id bob) 1 (Some 1) "reply b" 130 1 0 7)).
Proof.
  split.
  - apply (proj1 toggleUpvote_twice_restores 201 202 db_voted alice 1
             (Post.mk 1 (user_id alice) "hello" None None 1 4 100)).
    + reflexivity.
    + vm_compute. apply le_n.
  - apply (proj2 toggleUpvote_twice_restores 201 202 db_voted bob 3
             (Comment.mk 3 (user_id bob) 1 (Some 1) "reply b" 130 1 0 7)).
    + reflexivity.
    + vm_compute. apply le_0_n.
Defined.

(** C3 as stated fails for a caller who had already upvoted: alice holds
    the one vote row on post 1 of [db_voted]; her second toggle in a row
    re-inserts it and answers [isUpvoted = true].  It also fails where the
    caller holds two rows on the entity: on [db_duplicate_votes] both
    toggles find a row and the points go from 2 to 0. *)
Lemma toggleUpvote_twice_second_true :
  (find_post db_voted 1
   = Some (Post.mk 1 (user_id alice) "hello" None None 1 4 100)
   /\ post_votes db_voted (user_id alice) 1
      = [PostUpvote.mk 1 (user_id alice) 1 150]
   /\ fst (postRouter_upvote 202 (Some alice) 1
             (snd (postRouter_upvote 201 (Some alice) 1 db_voted)))
      = Responds (mkSuccess true "Post updated" (mkPostUpvoteData 1 true)))
  /\
  (find_post db_duplicate_votes 1
   = Some (Post.mk 1 (user_id alice) "hello" None None 2 0 100)
   /\ fst (postRouter_upvote 202 (Some alice) 1
             (snd (postRouter_upvote 201 (Some alice) 1 db_duplicate_votes)))
      = Responds (mkSuccess true "Post updated" (mkPostUpvoteData 0 false))).
Proof. repeat split. Qed.

(** ** Uniqueness of vote rows *)

Lemma upvotes_unique_tables db db' :
  postUpvotes db' = postUpvotes db ->
  commentUpvoted db' = commentUpvoted db ->
  upvotes_unique db -> upvotes_unique db'.
Proof.
  intros Hp Hc [H1 H2]. unfold upvotes_unique, post_votes, comment_votes.
  rewrite Hp, Hc. now split.
Qed.

(** Comment creation writes the posts and comments tables only. *)
Lemma createComment_tx_votes now u id content db rows db' :
  createComment_tx now u id content db = inr (rows, db') ->
  postUpvotes db' = postUpvotes db /\ commentUpvoted db' = commentUpvoted db.
Proof.
  unfold createComment_tx, bind, update_posts, exec, insert_comment, throw.
  destruct (first _); intros [= <- <-]; now split.
Qed.

Lemma createReply_tx_votes now u id content db rows db' :
  createReply_tx now u id content db = inr (rows, db') ->
  postUpvotes db' = postUpvotes db /\ commentUpvoted db' = commentUpvoted db.
Proof.
  unfold createReply_tx, bind, query, update_comments, update_posts, exec,
    insert_comment, throw.
  destruct (first (sql_limit 1 _)); [|discriminate].
  destruct (first _); [|discriminate].
  destruct (first _); intros [= <- <-]; now split.
Qed.

Lemma is_post_vote_inv uid id v :
  is_post_vote uid id v = true ->
  PostUpvote.postId v = id /\ PostUpvote.userId v = uid.
Proof.
  unfold is_post_vote. intros H. apply andb_true_iff in H as [H1 H2].
  apply Z.eqb_eq in H1. apply String.eqb_eq in H2. now split.
Qed.

Lemma is_comment_vote_inv uid id v :
  is_comment_vote uid id v = true ->
  CommentUpvote.commentId v = id /\ CommentUpvote.userId v = uid.
Proof.
  unfold is_comment_vote. intros H. apply andb_true_iff in H as [H1 H2].
  apply Z.eqb_eq in H1. apply String.eqb_eq in H2. now split.
Qed.

Lemma postRouter_upvote_unique now c_user id db :
  upvotes_unique db -> upvotes_unique (snd (postRouter_upvote now c_user id db)).
Proof.
  intros Hu. destruct c_user as [u|]; [|exact Hu].
  unfold postRouter_upvote, loggedIn, db_transaction.
  rewrite postUpvote_tx_run. cbn zeta.
  destruct (find_post db id) as [p|]; [|exact Hu]. cbn [snd].
  destruct Hu as [H1 H2]. split; [|exact H2].
  intros uid' id'. unfold post_votes. cbn [postUpvotes set_postUpvotes set_posts].
  destruct (find (is_post_vote (user_id u) id) (postUpvotes db)) as [e|] eqn:E.
  - etransitivity; [apply filter_delete_le | apply H1].
  - rewrite filter_insert, length_app.
    destruct (is_post_vote uid' id' _) eqn:V; simpl.
    + apply is_post_vote_inv in V as [<- <-]. simpl.
      rewrite (find_none_filter _ _ E). simpl. lia.
    + specialize (H1 uid' id'). unfold post_votes in H1. lia.
Qed.

Lemma commentsRouter_upvote_unique now c_user id db :
  upvotes_unique db ->
  upvotes_unique (snd (commentsRouter_upvote now c_user id db)).
Proof.
  intros Hu. destruct c_user as [u|]; [|exact Hu].
  unfold commentsRouter_upvote, loggedIn, db_transaction.
  rewrite commentUpvote_tx_run. cbn zeta.
  destruct (find_comment db id) as [c|]; [|exact Hu]. cbn [snd].
  destruct Hu as [H1 H2]. split; [exact H1|].
  intros uid' id'. unfold comment_votes.
  cbn [commentUpvoted set_commentUpvoted set_comments].
  destruct (find (is_comment_vote (user_id u) id) (commentUpvoted db))
    as [e|] eqn:E.
  - etransitivity; [apply filter_delete_le | apply H2].
  - rewrite filter_insert, length_app.
    destruct (is_comment_vote uid' id' _) eqn:V; simpl.
    + apply is_comment_vote_inv in V as [<- <-]. simpl.
      rewrite (find_none_filter _ _ E). simpl. lia.
    + specialize (H2 uid' id'). unfold comment_votes in H2. lia.
Qed.

Lemma step_unique db op : upvotes_unique db -> upvotes_unique (step db op).
Proof.
  intros Hu. destruct op as [now u t c l|now u id c|now u id c|now u id
                            |now u id|u id|u q|u id q|u id q]; cbn [step].
  - destruct u as [u|]; [|exact Hu].
    now apply (upvotes_unique_tables db).
  - destruct u as [u|]; [|exact Hu].
    unfold postRouter_comment, loggedIn, db_transaction.
    destruct (createComment_tx now u id c db) as [e|[rows db']] eqn:E;
      [exact Hu|].
    apply createComment_tx_votes in E as [Hp Hc].
    now apply (upvotes_unique_tables db).
  - destruct u as [u|]; [|exact Hu].
    unfold commentsRouter_post, loggedIn, db_transaction.
    destruct (createReply_tx now u id c db) as [e|[rows db']] eqn:E;
      [exact Hu|].
    apply createReply_tx_votes in E as [Hp Hc].
    now apply (upvotes_unique_tables db).
  - now apply postRouter_upvote_unique.
  - now apply commentsRouter_upvote_unique.
  - unfold postRouter_get. destruct (first _); exact Hu.
  - exact Hu.
  - unfold postRouter_comments. destruct (first _); exact Hu.
  - exact Hu.
Qed.

(** C8.  Every core operation keeps the vote rows unique per (user, post)
    and per (user, comment), and so does every sequence of them, from any
    store where they are unique. *)
Theorem upvotes_unique_invariant :
  (forall op db, upvotes_unique db -> upvotes_unique (step db op))
  /\ (forall ops db, upvotes_unique db -> upvotes_unique (run ops db)).
Proof.
  split.
  - intros op db. apply step_unique.
  - intros ops. unfold run.
    induction ops as [|op ops IH]; intros db Hu; simpl; [exact Hu|].
    apply IH. now apply step_unique.
Qed.

(** C8 on the sample store, through a reply, three toggles and a listing. *)
Lemma upvotes_unique_invariant_witness :
  upvotes_unique (step db_voted (TogglePostUpvote 300 (Some bob) 1))
  /\ upvotes_unique
       (run [CreateReply 300 (Some bob) 2 "again";
             TogglePostUpvote 301 (Some bob) 1;
             ToggleCommentUpvote 302 (Some alice) 2;
             ListChildren None 1 by_points_desc;
             ToggleCommentUpvote 303 (Some alice) 2]
            db_voted).
Proof.
  assert (Hu : upvotes_unique db_voted).
  { split; intros uid id.
    - unfold post_votes. simpl.
      destruct (is_post_vote uid id _); simpl; [apply le_n | apply le_0_n].
    - unfold comment_votes. simpl.
      destruct (is_comment_vote uid id _); simpl; [apply le_n | apply le_0_n]. }
  split.
  - apply (proj1 upvotes_unique_invariant). exact Hu.
  - apply (proj2 upvotes_unique_invariant). exact Hu.
Defined.

(** ** Comment creation *)

Lemma fresh_id_update {A : Type} (key : A -> Z) (w : A -> bool) (f : A -> A)
    (rows : list A) :
  (forall r, key (f r) = key r) ->
  fresh_id key (update_rows w f rows) = fresh_id key rows.
Proof.
  intros Hk. unfold fresh_id, update_rows. f_equal.
  induction rows as [|r rows IH]; simpl; [reflexivity|].
  rewrite IH. destruct (w r); [rewrite Hk|]; reflexivity.
Qed.

Lemma createComment_tx_run now u id content db :
  createComment_tx now u id content db =
  match find_post db id with
  | None => inl (NotFound "Post not found")
  | Some _ =>
      let row :=
        Comment.mk (fresh_id Comment.id (comments db)) (user_id u) id None
                   content now 0 0 0 in
      inr ([row],
           set_comments (insert_row row)
             (set_posts (update_rows (fun p => Post.id p =? id)
                                     (Post.set_commentCount incr)) db))
  end.
Proof.
  unfold createComment_tx, bind, update_posts, exec, find_post.
  rewrite first_returning.
  destruct (find (fun p => Post.id p =? id) (posts db)); reflexivity.
Qed.

Lemma createReply_tx_run now u id content db :
  createReply_tx now u id content db =
  match find_comment db id with
  | None => inl (NotFound "Comment not found")
  | Some parent =>
      match find_post db (Comment.postId parent) with
      | None => inl (NotFound "Error creating comment")
      | Some _ =>
          let row :=
            Comment.mk (fresh_id Comment.id (comments db)) (user_id u)
                       (Comment.postId parent) (Some id) content now
                       (Comment.depth parent + 1) 0 0 in
          inr ([row],
               set_comments (insert_row row)
                 (set_posts
                    (update_rows
                       (fun p => Post.id p =? Comment.postId parent)
                       (Post.set_commentCount incr))
                    (set_comments
                       (update_rows (fun c => Comment.id c =? id)
                                    (Comment.set_commentCount incr)) db)))
      end
  end.
Proof.
  unfold createReply_tx, bind, query, update_comments, update_posts, exec,
    find_comment, find_post.
  rewrite select_one.
  destruct (find (fun c => Comment.id c =? id) (comments db))
    as [parent|] eqn:E; [|reflexivity].
  assert (Hid : Comment.id parent = id).
  { apply find_some in E as [_ E]. now apply Z.eqb_eq in E. }
  rewrite !first_returning, Hid, E.
  cbn [option_map posts set_comments].
  destruct (find _ (posts db)); [|reflexivity].
  unfold insert_comment, exec.
  cbn [option_map comments set_posts set_comments
       v_userId v_postId v_parentCommentId v_content v_depth default].
  rewrite fresh_id_update by reflexivity. reflexivity.
Qed.




(** C5, the code's behaviour.  For an existing post the transaction of
    [POST /:id/comment] does what the claim says (the post's commentCount
    grows by 1; one comment with no parent, depth 0 and that post's id is
    inserted and yielded), and for a missing post the route throws NotFound
    with the store as it was.  The handler however drops the response it
    builds: its reply is [Undefined], not the created comment. *)
Theorem createTopLevelComment_reply_undefined :
  (forall now db u id content post,
      find_post db id = Some post ->
      exists c db',
        postRouter_comment now (Some u) id content db = (Undefined, db')
        /\ db_transaction (createComment_tx now u id content) db
           = (inr [c], db')
        /\ c = Comment.mk (Comment.id c) (user_id u) id None content now 0 0 0
        /\ find_comment db (Comment.id c) = None
        /\ find_comment db' (Comment.id c) = Some c
        /\ find_post db' id
           = Some (Post.set_commentCount (fun n => n + 1) post))
  /\
  (forall now db u id content,
      find_post db id = None ->
      postRouter_comment now (Some u) id content db
      = (Throws (NotFound "Post not found"), db)).
Proof.
  split.
  - intros now db u id content post Hp.
    unfold postRouter_comment, loggedIn, db_transaction.
    rewrite createComment_tx_run, Hp. cbn zeta.
    do 2 eexists. repeat split.
    + apply find_fresh.
    + unfold find_comment. cbn [comments set_comments set_posts Comment.id].
      rewrite find_app_none by apply find_fresh.
      cbn [Comment.id]. now rewrite Z.eqb_refl.
    + unfold find_post. cbn [posts set_comments set_posts].
      rewrite find_update_same by reflexivity.
      unfold find_post in Hp. now rewrite Hp.
  - intros now db u id content Hp.
    unfold postRouter_comment, loggedIn, db_transaction.
    now rewrite createComment_tx_run, Hp.
Qed.

(** C5 at the failing input: alice comments on post 1 of [db_post]; the
    comment is stored and counted, and the handler answers nothing. *)
Lemma createTopLevelComment_reply_undefined_witness :
  (exists c db',
      postRouter_comment 300 (Some alice) 1 "first!" db_post = (Undefined, db')
      /\ comments db' = [c]
      /\ c = Comment.mk 1 (user_id alice) 1 None "first!" 300 0 0 0
      /\ find_post db' 1
         = Some (Post.mk 1 (user_id alice) "hello" None None 0 1 100))
  /\ postRouter_comment 300 (Some alice) 7 "first!" db_post
     = (Throws (NotFound "Post not found"), db_post).
Proof.
  split.
  - destruct (proj1 createTopLevelComment_reply_undefined 300 db_post alice 1
                "first!" (Post.mk 1 (user_id alice) "hello" None None 0 0 100)
                eq_refl)
      as (c & db' & Hr & Ht & Hc & _ & _ & Hp).
    exists c, db'. split; [exact Hr|].
    vm_compute in Ht. injection Ht as <- <-.
    split; [reflexivity|]. split; [reflexivity | exact Hp].
  - apply (proj2 createTopLevelComment_reply_undefined 300 db_post alice 7
             "first!").
    reflexivity.
Defined.

(** ** Listing the comments of a post: the existence guard *)

Lemma first_map {A B : Type} (f : A -> B) (l : list A) :
  first (map f l) = option_map f (first l).
Proof. destruct l; reflexivity. Qed.

(** C6, the code's behaviour.  The guard of [GET /:id/comments] is
    inverted: the listing throws NotFound when the post exists, and answers
    with the page of comments when it does not. *)
Theorem listPostComments_guard_inverted :
  (forall c_user id q db post,
      find_post db id = Some post ->
      postRouter_comments c_user id q db
      = (Throws (NotFound "Post not found"), db))
  /\
  (forall c_user id q db,
      find_post db id = None ->
      exists r,
        postRouter_comments c_user id q db = (Responds r, db)
        /\ p_data r = post_comments db c_user id q).
Proof.
  split.
  - intros c_user id q db post Hp. unfold postRouter_comments.
    rewrite first_limit_one, first_map, first_filter.
    unfold find_post in Hp. now rewrite Hp.
  - intros c_user id q db Hp. unfold postRouter_comments.
    rewrite first_limit_one, first_map, first_filter.
    unfold find_post in Hp. rewrite Hp. cbn [option_map].
    eexists. split; reflexivity.
Qed.

(** C6 at the failing inputs: post 1 of [db_thread] exists and its listing
    is refused; post 9 does not exist in [db_dangling] and its listing is
    served. *)
Lemma listPostComments_guard_inverted_witness :
  postRouter_comments None 1 by_points_desc db_thread
  = (Throws (NotFound "Post not found"), db_thread)
  /\ exists r,
      postRouter_comments None 9 by_points_desc db_dangling
      = (Responds r, db_dangling)
      /\ map (fun n => Comment.id (item_comment (node_item n))) (p_data r)
         = [1].
Proof.
  split.
  - apply (proj1 listPostComments_guard_inverted None 1 by_points_desc
             db_thread (Post.mk 1 (user_id alice) "hello" None None 0 4 100)).
    reflexivity.
  - destruct (proj2 listPostComments_guard_inverted None 9 by_points_desc
                db_dangling eq_refl) as (r & Hr & Hd).
    exists r. split; [exact Hr|]. rewrite Hd. reflexivity.
Defined.

(** ** Pagination *)

Lemma total_pages_nonzero count limit :
  count <> 0 -> total_pages count limit = of_Z count.
Proof.
  intros Hc. unfold total_pages, js_or, of_Z, Math_ceil.
  destruct (Qeq_bool (inject_Z count) 0) eqn:E.
  - apply Qeq_bool_eq in E. unfold Qeq in E. simpl in E. lia.
  - cbn [option_map]. now rewrite Qceiling_Z.
Qed.

(** C7, the code's behaviour.  Whenever some row matches the filter, each
    listing reports the number of matching rows itself as [totalPages],
    whatever the page size: [Math.ceil(count || 0 / limit)] divides only the
    literal 0. *)
Theorem totalPages_is_row_count :
  (forall c_user q db,
      let totalCount :=
        countDistinct Post.id
          (filter (posts_where (author q) (site q)) (posts db)) in
      totalCount <> 0 ->
      pages_of (fst (postRouter_list c_user q db)) = Some (of_Z totalCount))
  /\
  (forall c_user id q db,
      let totalCount :=
        countDistinct Comment.id (filter (is_child_of id) (comments db)) in
      totalCount <> 0 ->
      pages_of (fst (commentsRouter_comments c_user id q db))
      = Some (of_Z totalCount))
  /\
  (forall c_user id q db,
      let totalCount :=
        countDistinct Comment.id
          (filter (fun c => (Comment.postId c =? id)
                            && isNull (Comment.parentCommentId c))
                  (comments db)) in
      find_post db id = None ->
      totalCount <> 0 ->
      pages_of (fst (postRouter_comments c_user id q db))
      = Some (of_Z totalCount)).
Proof.
  split; [|split].
  - intros c_user q db n Hn. unfold postRouter_list. cbn [fst pages_of totalPages].
    f_equal. now apply total_pages_nonzero.
  - intros c_user id q db n Hn. unfold commentsRouter_comments.
    cbn [fst pages_of totalPages]. f_equal. now apply total_pages_nonzero.
  - intros c_user id q db n Hp Hn. unfold postRouter_comments.
    rewrite first_limit_one, first_map, first_filter.
    unfold find_post in Hp. rewrite Hp. cbn [option_map fst pages_of totalPages].
    f_equal. now apply total_pages_nonzero.
Qed.

(** C7 at the failing inputs: with page size 2, one post, the three
    children of comment 1 and the one top-level comment of post 9 are
    reported as 1, 3 and 1 pages; the contract asks for
    [ceil(3 / 2) = 2] pages of children. *)
Lemma totalPages_is_row_count_witness :
  pages_of (fst (postRouter_list None by_points_desc db_thread))
  = Some (of_Z 1)
  /\ pages_of (fst (commentsRouter_comments None 1 by_points_desc db_thread))
     = Some (of_Z 3)
  /\ pages_of (fst (postRouter_comments None 9 by_points_desc db_dangling))
     = Some (of_Z 1)
  /\ spec_totalPages 3 (limit by_points_desc) = 2.
Proof.
  split; [|split; [|split]].
  - apply (proj1 totalPages_is_row_count None by_points_desc db_thread).
    vm_compute. discriminate.
  - apply (proj1 (proj2 totalPages_is_row_count) None 1 by_points_desc
             db_thread).
    vm_compute. discriminate.
  - apply (proj2 (proj2 totalPages_is_row_count) None 9 by_points_desc
             db_dangling).
    + reflexivity.
    + vm_compute. discriminate.
  - reflexivity.
Defined.

(** ** Ordering *)

Section OrderByFacts.
Context {A : Type} (le : A -> A -> bool).
Hypothesis le_total : forall a b, le a b = true \/ le b a = true.
Hypothesis le_trans :
  forall a b c, le a b = true -> le b c = true -> le a c = true.

Lemma insert_sorted_perm x l : Permutation (x :: l) (insert_sorted le x l).
Proof.
  induction l as [|y l IH]; simpl; [reflexivity|].
  destruct (le x y); [reflexivity|].
  rewrite perm_swap. now constructor.
Qed.

Lemma order_by_perm l : Permutation l (order_by le l).
Proof.
  unfold order_by. induction l as [|x l IH]; simpl; [reflexivity|].
  rewrite <- insert_sorted_perm. now constructor.
Qed.


End OrderByFacts.









(** ** The vote annotation *)


(** ** The children preview *)

Lemma is_child_of_parent id c :
  is_child_of id c = true -> Comment.parentCommentId c = Some id.
Proof.
  unfold is_child_of, eq_nullable.
  destruct (Comment.parentCommentId c) as [x|]; [|discriminate].
  intros H. apply Z.eqb_eq in H. now subst.
Qed.




(** The preview on a sample store: of the three children of comment 1 the
    two with most points are carried, alice's vote on comment 3 with them;
    without [includeChildren] none is. *)
Example childComments_preview_sample :
  map (fun n => map (fun k => (Comment.id (item_comment k), commentUpvotes k))
                    (childComments n))
      (items_of (fst (postRouter_comments (Some alice) 9 by_points_desc
                                          db_dangling)))
  = [[(3, [user_id alice]); (4, [])]]
  /\ map childComments
         (items_of (fst (postRouter_comments (Some alice) 9
                           (mkQuery 2 1 "points" "desc" None None None)
                           db_dangling)))
     = [[]].
Proof. split; reflexivity. Qed.

(** ** Reads without a user *)





(** ** The scenario of the spec, run *)

(** A post, a top-level comment on it, a reply to that comment, and two
    toggles by bob on the reply: the counters and depths the spec expects. *)
Example thread_scenario :
  let db1 := snd (postRouter_create 100 (Some alice) "hello" None None
                                    (mkDb [alice; bob] [] [] [] [])) in
  let db2 := snd (postRouter_comment 110 (Some bob) 1 "first" db1) in
  let db3 := snd (commentsRouter_post 120 (Some alice) 1 "reply a" db2) in
  let (r4, db4) := commentsRouter_upvote 130 (Some bob) 2 db3 in
  let (r5, db5) := commentsRouter_upvote 140 (Some bob) 2 db4 in
  db1 = db_post
  /\ option_map Post.commentCount (find_post db2 1) = Some 1
  /\ option_map Comment.depth (find_comment db2 1) = Some 0
  /\ option_map Comment.commentCount (find_comment db2 1) = Some 0
  /\ option_map Comment.commentCount (find_comment db3 1) = Some 1
  /\ option_map Post.commentCount (find_post db3 1) = Some 2
  /\ option_map Comment.depth (find_comment db3 2) = Some 1
  /\ r4 = Responds (mkSuccess true "Comment updated"
                              (mkCommentUpvoteData 1 [user_id bob]))
  /\ r5 = Responds (mkSuccess true "Comment updated"
                              (mkCommentUpvoteData 0 []))
  /\ db5 = db3.
Proof. vm_compute. repeat split. Qed.

(** * Further properties of the routes *)

(** ** Requests without a user *)

Lemma step_anonymous db op : op_user op = None -> step db op = db.
Proof.
  destruct op; cbn [op_user step]; intros ->; try reflexivity.
  - unfold postRouter_get. destruct (first _); reflexivity.
  - unfold postRouter_comments. destruct (first _); reflexivity.
Qed.

(** X1.  Without a resolved user every writing route, and [GET /user],
    is stopped by [loggedIn] with 401 before it touches the store; so no
    sequence of requests made without a user changes the store. *)
Theorem anonymous_never_writes :
  (forall now title content url db,
      postRouter_create now None title content url db
      = (Throws (mkHTTPException 401 "Un-Authoraized"), db))
  /\ (forall now id content db,
         postRouter_comment now None id content db
         = (Throws (mkHTTPException 401 "Un-Authoraized"), db))
  /\ (forall now id content db,
         commentsRouter_post now None id content db
         = (Throws (mkHTTPException 401 "Un-Authoraized"), db))
  /\ (forall now id db,
         postRouter_upvote now None id db
         = (Throws (mkHTTPException 401 "Un-Authoraized"), db))
  /\ (forall now id db,
         commentsRouter_upvote now None id db
         = (Throws (mkHTTPException 401 "Un-Authoraized"), db))
  /\ (forall db,
         authRouter_user None db
         = (Throws (mkHTTPException 401 "Un-Authoraized"), db))
  /\ (forall ops db,
         Forall (fun op => op_user op = None) ops -> run ops db = db).
Proof.
  repeat (split; [reflexivity|]).
  intros ops db H. revert db. unfold run.
  induction H as [|op ops Hop _ IH]; intros db; simpl; [reflexivity|].
  rewrite (step_anonymous db op Hop). apply IH.
Qed.

(** X1 on a sample store: an anonymous reply, toggle, post and listing. *)
Lemma anonymous_never_writes_witness :
  run [CreateReply 300 None 2 "again"; TogglePostUpvote 301 None 1;
       CreatePost 302 None "t" None None; ListChildren None 1 by_points_desc]
      db_voted
  = db_voted.
Proof.
  apply (proj2 (proj2 (proj2 (proj2 (proj2 (proj2 anonymous_never_writes)))))).
  repeat constructor.
Defined.

(** ** Fetching one post *)

Section LeftJoinFacts.
Context {A B : Type} (on : A -> B -> bool) (w : A -> bool).

Lemma filter_pair_block (a : A) (ms : list (option B)) :
  filter (fun r : A * option B => w (fst r)) (map (fun b => (a, b)) ms)
  = if w a then map (fun b => (a, b)) ms else [].
Proof.
  induction ms as [|m ms IH]; simpl; [now destruct (w a)|].
  rewrite IH. now destruct (w a).
Qed.

Lemma leftJoin_block (right : list B) (a : A) :
  match filter (on a) right with
  | [] => [(a, None)]
  | ms => map (fun b => (a, Some b)) ms
  end
  = map (fun b => (a, b))
        (match filter (on a) right with
         | [] => [None]
         | ms => map Some ms
         end).
Proof.
  destruct (filter (on a) right); [reflexivity|].
  simpl. now rewrite map_map.
Qed.

(** The first joined row of the first left row that passes [w]. *)
Lemma first_leftJoin (right : list B) (left : list A) :
  first (filter (fun r : A * option B => w (fst r)) (leftJoin on right left))
  = option_map (fun a => (a, find (on a) right)) (find w left).
Proof.
  unfold leftJoin. induction left as [|a left IH]; [reflexivity|].
  cbn [flat_map find]. rewrite filter_app, leftJoin_block, filter_pair_block.
  destruct (w a); [|exact IH].
  cbn [option_map]. rewrite <- (first_filter (on a) right).
  destruct (filter (on a) right); reflexivity.
Qed.
End LeftJoinFacts.

Lemma find_ext {A : Type} (f g : A -> bool) (l : list A) :
  (forall x, f x = g x) -> find f l = find g l.
Proof.
  intros H. induction l as [|x l IH]; simpl; [reflexivity|].
  now rewrite H, IH.
Qed.

Lemma filter_map_none {A B : Type} (w : A -> bool) (l : list A) :
  filter (fun r : A * option B => w (fst r)) (map (fun r => (r, None)) l)
  = map (fun r => (r, None)) (filter w l).
Proof.
  induction l as [|r l IH]; [reflexivity|].
  simpl. rewrite IH. now destruct (w r).
Qed.

Lemma postRouter_get_run c_user id db :
  postRouter_get c_user id db =
  match find_post db id with
  | None => (Throws (NotFound "Post not found"), db)
  | Some p =>
      (Responds
         (mkSuccess true "Post Fetched"
            (mkPostItem p (author_of db (Post.userId p))
               (match c_user with
                | Some u => post_upvoted db (user_id u) id
                | None => false
                end))), db)
  end.
Proof.
  unfold postRouter_get, post_rows, find_post. rewrite first_map.
  assert (Hin : first (filter (fun r : Post.t * option User =>
                                 Post.id (fst r) =? id)
                         (leftJoin (fun p u => String.eqb (Post.userId p)
                                                          (user_id u))
                                   (user db) (posts db)))
                = option_map (fun p => (p, find (fun u => String.eqb
                                                  (Post.userId p) (user_id u))
                                                (user db)))
                             (find (fun p => Post.id p =? id) (posts db))).
  { apply (first_leftJoin _ (fun p => Post.id p =? id)). }
  destruct c_user as [u|].
  - pose proof (first_leftJoin
                  (fun (r : Post.t * option User) v =>
                     (PostUpvote.postId v =? Post.id (fst r))
                     && String.eqb (PostUpvote.userId v) (user_id u))
                  (fun r : Post.t * option User => Post.id (fst r) =? id)
                  (postUpvotes db)
                  (leftJoin (fun p u => String.eqb (Post.userId p) (user_id u))
                            (user db) (posts db))) as Hout.
    cbv beta in Hout. unfold PostRow. rewrite Hout.
    rewrite <- first_filter, Hin.
    destruct (find (fun p => Post.id p =? id) (posts db)) as [p|] eqn:E;
      [|reflexivity].
    cbn [option_map project_post fst]. do 4 f_equal.
    + unfold author_of.
      rewrite (find_ext _ (fun x => String.eqb (user_id x) (Post.userId p)));
        [reflexivity | intros x; apply String.eqb_sym].
    + apply find_some in E as [_ E]. apply Z.eqb_eq in E. rewrite E.
      unfold post_upvoted. rewrite find_existsb. unfold is_post_vote.
      now destruct (find _ (postUpvotes db)).
  - pose proof (filter_map_none (B := PostUpvote.t)
                  (fun r : Post.t * option User => Post.id (fst r) =? id)
                  (leftJoin (fun p u => String.eqb (Post.userId p) (user_id u))
                            (user db) (posts db))) as Hmap.
    cbv beta in Hmap. unfold PostRow.
    rewrite Hmap, first_map, Hin.
    destruct (find (fun p => Post.id p =? id) (posts db)) as [p|];
      [|reflexivity].
    cbn [option_map project_post fst]. do 4 f_equal.
    unfold author_of.
    rewrite (find_ext _ (fun x => String.eqb (user_id x) (Post.userId p)));
      [reflexivity | intros x; apply String.eqb_sym].
Qed.

(** X2.  [GET /:id] answers NotFound exactly when no post carries the id.
    Otherwise it answers that post's row with its author, and [isUpvoted]
    tells whether a vote row of the viewer on the post exists (never, when
    there is no viewer). *)
Theorem getPost_reply :
  forall c_user id db,
    (find_post db id = None
     <-> postRouter_get c_user id db
         = (Throws (NotFound "Post not found"), db))
    /\ (forall p,
           find_post db id = Some p ->
           postRouter_get c_user id db
           = (Responds
                (mkSuccess true "Post Fetched"
                   (mkPostItem p (author_of db (Post.userId p))
                      (match c_user with
                       | Some u => post_upvoted db (user_id u) id
                       | None => false
                       end))), db)).
Proof.
  intros c_user id db. rewrite postRouter_get_run. split.
  - destruct (find_post db id); split; intros H; try discriminate; reflexivity.
  - intros p ->. reflexivity.
Qed.

(** X2 on the sample store: alice and bob fetch post 1, which only alice
    upvoted; nobody can fetch post 7. *)
Lemma getPost_reply_witness :
  postRouter_get (Some bob) 7 db_voted
  = (Throws (NotFound "Post not found"), db_voted)
  /\ fst (postRouter_get (Some alice) 1 db_voted)
     = Responds
         (mkSuccess true "Post Fetched"
            (mkPostItem (Post.mk 1 (user_id alice) "hello" None None 1 4 100)
                        (Some (mkAuthor "alice" (user_id alice))) true))
  /\ fst (postRouter_get (Some bob) 1 db_voted)
     = Responds
         (mkSuccess true "Post Fetched"
            (mkPostItem (Post.mk 1 (user_id alice) "hello" None None 1 4 100)
                        (Some (mkAuthor "alice" (user_id alice))) false)).
Proof.
  split; [|split].
  - apply (proj1 (getPost_reply (Some bob) 7 db_voted)). reflexivity.
  - rewrite (proj2 (getPost_reply (Some alice) 1 db_voted)
               (Post.mk 1 (user_id alice) "hello" None None 1 4 100) eq_refl).
    reflexivity.
  - rewrite (proj2 (getPost_reply (Some bob) 1 db_voted)
               (Post.mk 1 (user_id alice) "hello" None None 1 4 100) eq_refl).
    reflexivity.
Defined.

Lemma find_insert_other {A : Type} (key : A -> Z) (rows : list A) (r : A)
    (j : Z) :
  j <> key r ->
  find (fun x => key x =? j) (insert_row r rows)
  = find (fun x => key x =? j) rows.
Proof.
  intros Hj. destruct (find (fun x => key x =? j) rows) as [x|] eqn:E.
  - now apply find_app_some.
  - rewrite (find_app_none _ _ _ E).
    destruct (Z.eqb_spec (key r) j); [congruence | reflexivity].
Qed.

Lemma find_insert_fresh {A : Type} (key : A -> Z) (rows : list A) (r : A) :
  key r = fresh_id key rows ->
  find (fun x => key x =? key r) (insert_row r rows) = Some r.
Proof.
  intros Hk. rewrite find_app_none.
  - now rewrite Z.eqb_refl.
  - rewrite Hk. apply find_fresh.
Qed.

(** X3.  [POST /] stores the post under an id no post carried, with zero
    points and zero commentCount, and answers that id; fetching the id
    afterwards, as any viewer, returns the stored post; every other id
    fetches what it fetched before. *)
Theorem createPost_then_get :
  forall now u title content url db,
  exists pid db',
    postRouter_create now (Some u) title content url db
    = (Responds (mkSuccess true "Post created Successfully" (Some pid)), db')
    /\ find_post db pid = None
    /\ (forall viewer, exists a up,
           postRouter_get viewer pid db'
           = (Responds
                (mkSuccess true "Post Fetched"
                   (mkPostItem
                      (Post.mk pid (user_id u) title url content 0 0 now)
                      a up)), db'))
    /\ (forall j, j <> pid -> find_post db' j = find_post db j).
Proof.
  intros now u title content url db.
  exists (fresh_id Post.id (posts db)). eexists.
  split; [reflexivity|]. split; [apply find_fresh|]. split.
  - intros viewer. rewrite postRouter_get_run. unfold find_post.
    cbn [posts set_posts].
    pose proof (find_insert_fresh Post.id (posts db)
                  (Post.mk (fresh_id Post.id (posts db)) (user_id u) title url
                           content 0 0 now) eq_refl) as Hnew.
    cbn [Post.id] in Hnew. rewrite Hnew.
    do 2 eexists. reflexivity.
  - intros j Hj. unfold find_post. cbn [posts set_posts].
    now apply (find_insert_other Post.id).
Qed.

(** X3 on the sample store: bob's post gets id 2; post 1 is as before. *)
Lemma createPost_then_get_witness :
  exists db',
    postRouter_create 300 (Some bob) "news" None (Some "https://x.org") db_voted
    = (Responds (mkSuccess true "Post created Successfully" (Some 2)), db')
    /\ find_post db' 1 = find_post db_voted 1.
Proof.
  destruct (createPost_then_get 300 bob "news" None (Some "https://x.org")
              db_voted) as (pid & db' & Hr & _ & _ & Hother).
  assert (Hpid : pid = 2) by (vm_compute in Hr; congruence).
  exists db'. split.
  - rewrite Hr, Hpid. reflexivity.
  - apply Hother. rewrite Hpid. discriminate.
Defined.

(** ** A toggle and the reads after it *)

(** X4.  Where the caller holds at most one vote row on an existing post,
    the points and [isUpvoted] a toggle answers are the ones [GET /:id]
    reports to the same caller right after.  For a comment, the points are
    the ones stored and the answered [commentUpvotes] is the annotation the
    listings will show that caller. *)
Theorem toggle_then_read_agree :
  (forall now db u id p,
      find_post db id = Some p ->
      (List.length (post_votes db (user_id u) id) <= 1)%nat ->
      exists n b db',
        postRouter_upvote now (Some u) id db
        = (Responds (mkSuccess true "Post updated" (mkPostUpvoteData n b)),
           db')
        /\ exists item,
            postRouter_get (Some u) id db'
            = (Responds (mkSuccess true "Post Fetched" item), db')
            /\ Post.points (item_post item) = n
            /\ isUpvoted item = b)
  /\
  (forall now db u id c,
      find_comment db id = Some c ->
      (List.length (comment_votes db (user_id u) id) <= 1)%nat ->
      exists n l db',
        commentsRouter_upvote now (Some u) id db
        = (Responds (mkSuccess true "Comment updated"
                               (mkCommentUpvoteData n l)), db')
        /\ option_map Comment.points (find_comment db' id) = Some n
        /\ vote_annotation db' (user_id u) id = l).
Proof.
  split.
  - intros now db u id p Hp Hone.
    unfold postRouter_upvote, loggedIn, db_transaction.
    rewrite postUpvote_tx_run, Hp. cbn zeta.
    destruct (find (is_post_vote (user_id u) id) (postUpvotes db))
      as [e|] eqn:E; do 3 eexists; (split; [reflexivity|]);
      rewrite postRouter_get_run; unfold find_post;
      cbn [posts set_postUpvotes set_posts];
      rewrite (find_post_set_points _ _ _ _ Hp);
      eexists; (split; [reflexivity|]); (split; [reflexivity|]);
      cbn [isUpvoted]; unfold post_upvoted; rewrite find_existsb;
      cbn [postUpvotes set_postUpvotes set_posts].
    + now rewrite (find_delete_unique PostUpvote.id _ _ e Hone E).
    + now rewrite (find_app_none _ _ _ E), is_post_vote_refl.
  - intros now db u id c Hc Hone.
    unfold commentsRouter_upvote, loggedIn, db_transaction.
    rewrite commentUpvote_tx_run, Hc. cbn zeta.
    destruct (find (is_comment_vote (user_id u) id) (commentUpvoted db))
      as [e|] eqn:E; do 3 eexists; (split; [reflexivity|]);
      unfold find_comment, vote_annotation, comment_upvoted;
      cbn [comments commentUpvoted set_commentUpvoted set_comments];
      rewrite (find_comment_set_points _ _ _ _ Hc), find_existsb;
      (split; [reflexivity|]).
    + now rewrite (find_delete_unique CommentUpvote.id _ _ e Hone E).
    + now rewrite (find_app_none _ _ _ E), is_comment_vote_refl.
Qed.

(** X4 on the sample store: alice takes her vote off post 1 and reads it
    back; bob upvotes comment 3. *)
Lemma toggle_then_read_agree_witness :
  (exists db' item,
      postRouter_upvote 300 (Some alice) 1 db_voted
      = (Responds (mkSuccess true "Post updated" (mkPostUpvoteData 0 false)),
         db')
      /\ postRouter_get (Some alice) 1 db'
         = (Responds (mkSuccess true "Post Fetched" item), db')
      /\ Post.points (item_post item) = 0
      /\ isUpvoted item = false)
  /\
  (exists db',
      commentsRouter_upvote 300 (Some bob) 3 db_voted
      = (Responds (mkSuccess true "Comment updated"
                             (mkCommentUpvoteData 8 [user_id bob])), db')
      /\ vote_annotation db' (user_id bob) 3 = [user_id bob]).
Proof.
  split.
  - destruct (proj1 toggle_then_read_agree 300 db_voted alice 1
                (Post.mk 1 (user_id alice) "hello" None None 1 4 100)
                eq_refl (le_n 1))
      as (n & b & db' & Hr & item & Hg & Hn & Hb).
    assert (Hnb : n = 0 /\ b = false).
    { pose proof Hr as Hc. vm_compute in Hc. injection Hc as Hn0 Hb0 _.
      now split. }
    destruct Hnb as [-> ->]. exists db', item. now repeat split.
  - destruct (proj2 toggle_then_read_agree 300 db_voted bob 3
                (Comment.mk 3 (user_id bob) 1 (Some 1) "reply b" 130 1 0 7)
                eq_refl (le_0_n 1))
      as (n & l & db' & Hr & _ & Hl).
    assert (Hnl : n = 8 /\ l = [user_id bob]).
    { pose proof Hr as Hc. vm_compute in Hc. injection Hc as Hn0 Hl0 _.
      now split. }
    destruct Hnl as [-> ->]. exists db'. now split.
Defined.

(** ** Listing the children of a comment *)

Lemma map_load_item db uid (rows : list Comment.t) :
  map item_comment (map (load_item db uid) rows) = rows.
Proof. rewrite map_map. cbn [item_comment load_item]. apply map_id. Qed.








(** X7.  A page that starts at or beyond the last child is answered with an
    empty item list, not with an error. *)
Theorem listChildren_beyond_last :
  forall c_user id q db,
    Z.of_nat (List.length (filter (is_child_of id) (comments db)))
    <= (q_page q - 1) * limit q ->
    exists r,
      commentsRouter_comments c_user id q db = (Responds r, db)
      /\ p_data r = [].
Proof.
  intros c_user id q db H. unfold commentsRouter_comments.
  eexists. split; [reflexivity|]. cbn [p_data].
  unfold sql_offset, sql_limit. rewrite skipn_all2.
  - now rewrite firstn_nil.
  - rewrite <- (Permutation_length (order_by_perm _ _)). lia.
Qed.

(** X7 on the sample store: page 3 of the three children, two per page. *)
Lemma listChildren_beyond_last_witness :
  exists r,
    commentsRouter_comments None 1 (with_page by_points_desc 3) db_thread
    = (Responds r, db_thread)
    /\ p_data r = [].
Proof.
  apply (listChildren_beyond_last None 1 (with_page by_points_desc 3)
           db_thread).
  vm_compute. discriminate.
Defined.

(** ** Listing posts *)







(** ** A reply and the listing after it *)

Lemma filter_update_rows {A : Type} (g w : A -> bool) (f : A -> A)
    (rows : list A) :
  (forall r, g (f r) = g r) ->
  filter g (update_rows w f rows) = update_rows w f (filter g rows).
Proof.
  intros Hg. unfold update_rows.
  induction rows as [|r rows IH]; simpl; [reflexivity|].
  destruct (w r) eqn:Ew.
  - rewrite Hg. destruct (g r); simpl; [rewrite Ew|]; now rewrite IH.
  - destruct (g r); simpl; [rewrite Ew|]; now rewrite IH.
Qed.

Lemma length_update_rows {A : Type} (w : A -> bool) (f : A -> A)
    (rows : list A) :
  List.length (update_rows w f rows) = List.length rows.
Proof. apply length_map. Qed.

(** X9.  After a reply to comment [id] is stored, the first page of the
    children of [id], with a page size that holds them all, lists the new
    comment, and [id] has one child more than before. *)
Theorem createReply_then_listed :
  forall now db u id content parent post viewer q,
    find_comment db id = Some parent ->
    find_post db (Comment.postId parent) = Some post ->
    q_page q = 1 ->
    child_total db id + 1 <= limit q ->
    exists c db',
      db_transaction (createReply_tx now u id content) db = (inr [c], db')
      /\ child_total db' id = child_total db id + 1
      /\ In c (map item_comment
                   (items_of (fst (commentsRouter_comments viewer id q db')))).
Proof.
  intros now db u id content parent post viewer q Hc Hp Hpage Hlim.
  unfold db_transaction. rewrite createReply_tx_run, Hc, Hp. cbn zeta.
  do 2 eexists. split; [reflexivity|].
  assert (Hlen : child_total
                   (set_comments
                      (insert_row
                         (Comment.mk (fresh_id Comment.id (comments db))
                            (user_id u) (Comment.postId parent) (Some id)
                            content now (Comment.depth parent + 1) 0 0))
                      (set_posts
                         (update_rows
                            (fun p => Post.id p =? Comment.postId parent)
                            (Post.set_commentCount incr))
                         (set_comments
                            (update_rows (fun c => Comment.id c =? id)
                               (Comment.set_commentCount incr)) db))) id
                 = child_total db id + 1).
  { unfold child_total. cbn [comments set_comments set_posts].
    rewrite filter_insert, length_app.
    rewrite filter_update_rows by reflexivity. rewrite length_update_rows.
    unfold is_child_of at 2. cbn [Comment.parentCommentId eq_nullable].
    rewrite Z.eqb_refl. cbn [List.length]. lia. }
  split; [exact Hlen|].
  unfold commentsRouter_comments. cbn [fst items_of p_data].
  rewrite map_load_item, Hpage. unfold sql_offset, sql_limit.
  change (Z.to_nat ((1 - 1) * limit q)) with 0%nat. cbn [skipn].
  rewrite firstn_all2.
  - apply (Permutation_in _ (order_by_perm _ _)).
    apply filter_In. split.
    + cbn [comments set_comments set_posts]. apply in_or_app. right. now left.
    + unfold is_child_of. cbn [Comment.parentCommentId eq_nullable].
      apply Z.eqb_refl.
  - rewrite <- (Permutation_length (order_by_perm _ _)).
    unfold child_total in Hlen, Hlim. lia.
Qed.

(** X9 on the sample store: bob's reply to comment 1 gets id 5 and shows
    on the first page of four. *)
Lemma createReply_then_listed_witness :
  exists c db',
    db_transaction (createReply_tx 300 bob 1 "late") db_thread = (inr [c], db')
    /\ child_total db' 1 = 4
    /\ In c (map item_comment
                 (items_of (fst (commentsRouter_comments
                                   (Some alice) 1
                                   (mkQuery 4 1 "recent" "asc" None None None)
                                   db')))).
Proof.
  apply (createReply_then_listed 300 db_thread bob 1 "late"
           (Comment.mk 1 (user_id bob) 1 None "first" 110 0 3 0)
           (Post.mk 1 (user_id alice) "hello" None None 0 4 100)
           (Some alice) (mkQuery 4 1 "recent" "asc" None None None)).
  - reflexivity.
  - reflexivity.
  - reflexivity.
  - vm_compute. discriminate.
Defined.

(** ** When the reported page count is right *)

Lemma spec_totalPages_div count limit :
  0 < limit -> spec_totalPages count limit = - ((- count) / limit).
Proof.
  intros Hl. unfold spec_totalPages, Qceiling, Qfloor.
  destruct limit as [|l|l]; try lia.
  cbn. now rewrite Z.mul_1_r.
Qed.

Lemma of_Z_inj a b : of_Z a = of_Z b <-> a = b.
Proof.
  unfold of_Z, inject_Z. split; [intros [= H]; exact H | now intros ->].
Qed.

(** X10.  For a count of at least 0 and a page size of at least 1, the
    reported [totalPages] equals [ceil(count / limit)] exactly when at most
    one row matches or the page size is 1. *)
Theorem total_pages_right_iff :
  forall count limit,
    0 <= count -> 1 <= limit ->
    (total_pages count limit = of_Z (spec_totalPages count limit)
     <-> count <= 1 \/ limit = 1).
Proof.
  intros count limit Hc Hl.
  rewrite spec_totalPages_div by lia.
  assert (Hdiv : limit * ((- count) / limit) <= - count
                 < limit * ((- count) / limit) + limit).
  { pose proof (Z.div_mod (- count) limit ltac:(lia)).
    pose proof (Z.mod_pos_bound (- count) limit ltac:(lia)). lia. }
  destruct (Z.eq_dec count 0) as [->|Hnz].
  - unfold total_pages, of_Z, zero_over, js_or, Math_ceil.
    destruct (limit =? 0) eqn:E; [apply Z.eqb_eq in E; lia|].
    replace (- 0 / limit) with 0
      by (change (- 0) with 0; symmetry; apply Z.div_0_l; lia).
    split; [intros _; left; lia | intros _; reflexivity].
  - rewrite total_pages_nonzero by exact Hnz. rewrite of_Z_inj.
    split; intros H; nia.
Qed.

(** X10 on numbers: one row in pages of ten is one page, as reported;
    twenty-five rows in pages of ten are three pages, reported as 25. *)
Lemma total_pages_right_iff_witness :
  total_pages 1 10 = of_Z (spec_totalPages 1 10)
  /\ total_pages 25 10 <> of_Z (spec_totalPages 25 10).
Proof.
  split.
  - apply (proj2 (total_pages_right_iff 1 10 ltac:(lia) ltac:(lia))).
    left. lia.
  - intros H.
    apply (proj1 (total_pages_right_iff 25 10 ltac:(lia) ltac:(lia))) in H.
    lia.
Defined.

(** ** What one request writes *)

Lemma step_written db op : Written db (step db op).
Proof.
  destruct op as [now u t c l|now u id c|now u id c|now u id
                 |now u id|u id|u q|u id q|u id q]; cbn [step].
  - destruct u as [u|]; [apply Written_post | apply Written_nothing].
  - destruct u as [u|]; [|apply Written_nothing].
    unfold postRouter_comment, loggedIn, db_transaction.
    rewrite createComment_tx_run.
    destruct (find_post db id) as [p|] eqn:E; [|apply Written_nothing].
    now apply (Written_comment db now u id c p).
  - destruct u as [u|]; [|apply Written_nothing].
    unfold commentsRouter_post, loggedIn, db_transaction.
    rewrite createReply_tx_run.
    destruct (find_comment db id) as [parent|] eqn:E;
      [|apply Written_nothing].
    destruct (find_post db (Comment.postId parent)) as [p|] eqn:Ep;
      [|apply Written_nothing].
    now apply (Written_reply db now u id c parent p).
  - destruct u as [u|]; [|apply Written_nothing].
    unfold postRouter_upvote, loggedIn, db_transaction.
    rewrite postUpvote_tx_run. cbn zeta.
    destruct (find_post db id) as [p|] eqn:E; [|apply Written_nothing].
    destruct (find (is_post_vote (user_id u) id) (postUpvotes db))
      as [e|] eqn:Ev.
    + now apply (Written_post_unvote db u id p e).
    + now apply (Written_post_vote db now u id p).
  - destruct u as [u|]; [|apply Written_nothing].
    unfold commentsRouter_upvote, loggedIn, db_transaction.
    rewrite commentUpvote_tx_run. cbn zeta.
    destruct (find_comment db id) as [c|] eqn:E; [|apply Written_nothing].
    destruct (find (is_comment_vote (user_id u) id) (commentUpvoted db))
      as [e|] eqn:Ev.
    + now apply (Written_comment_unvote db u id c e).
    + now apply (Written_comment_vote db now u id c).
  - unfold postRouter_get. destruct (first _); apply Written_nothing.
  - apply Written_nothing.
  - unfold postRouter_comments. destruct (first _); apply Written_nothing.
  - apply Written_nothing.
Qed.

(** An invariant of every [Written] step holds along every run. *)
Lemma run_invariant (I : Db -> Prop) :
  (forall db db', Written db db' -> I db -> I db') ->
  forall ops db, I db -> I (run ops db).
Proof.
  intros Hstep ops. unfold run.
  induction ops as [|op ops IH]; intros db HI; simpl; [exact HI|].
  apply IH. apply (Hstep db); [apply step_written | exact HI].
Qed.

(** ** Facts on updated, extended and pruned tables *)

Section KeyedFacts.
Context {A : Type} (key : A -> Z).
Implicit Types (w g : A -> bool) (f : A -> A) (rows : list A).

Lemma In_update_rows w f rows r' :
  In r' (update_rows w f rows) ->
  exists r, In r rows /\ r' = if w r then f r else r.
Proof.
  unfold update_rows. intros H. apply in_map_iff in H as (r & <- & Hr).
  now exists r.
Qed.

Lemma In_insert_row rows r x :
  In x (insert_row r rows) -> In x rows \/ x = r.
Proof.
  unfold insert_row. intros H. apply in_app_or in H as [H|[<-|[]]]; auto.
Qed.

Lemma map_key_update w f rows :
  (forall r, key (f r) = key r) ->
  map key (update_rows w f rows) = map key rows.
Proof.
  intros Hk. unfold update_rows. rewrite map_map. apply map_ext.
  intros r. destruct (w r); [apply Hk | reflexivity].
Qed.

Lemma find_key_update w f rows j :
  (forall r, key (f r) = key r) ->
  find (fun x => key x =? j) (update_rows w f rows)
  = option_map (fun r => if w r then f r else r)
               (find (fun x => key x =? j) rows).
Proof.
  intros Hk. induction rows as [|r rows IH]; simpl; [reflexivity|].
  replace (key (if w r then f r else r)) with (key r)
    by (destruct (w r); [now rewrite Hk | reflexivity]).
  destruct (key r =? j); [reflexivity | exact IH].
Qed.

Lemma has_key_update w f rows j :
  (forall r, key (f r) = key r) ->
  find (fun x => key x =? j) rows <> None ->
  find (fun x => key x =? j) (update_rows w f rows) <> None.
Proof.
  intros Hk H. rewrite find_key_update by exact Hk.
  destruct (find _ rows); [discriminate | contradiction].
Qed.

Lemma has_key_insert rows r j :
  find (fun x => key x =? j) rows <> None ->
  find (fun x => key x =? j) (insert_row r rows) <> None.
Proof.
  intros H. destruct (find (fun x => key x =? j) rows) as [x|] eqn:E;
    [|contradiction].
  now rewrite (find_app_some _ _ r x E).
Qed.

Lemma has_key_In rows r : In r rows ->
  find (fun x => key x =? key r) rows <> None.
Proof.
  intros Hin H. apply (find_none _ _ H) in Hin. now rewrite Z.eqb_refl in Hin.
Qed.

Lemma fresh_not_key rows j :
  find (fun x => key x =? j) rows <> None -> j <> fresh_id key rows.
Proof. intros H ->. apply H, find_fresh. Qed.

Lemma length_filter_update g w f rows :
  (forall r, g (f r) = g r) ->
  List.length (filter g (update_rows w f rows)) = List.length (filter g rows).
Proof.
  intros Hg. rewrite filter_update_rows by exact Hg.
  apply length_update_rows.
Qed.

Lemma length_filter_insert g rows r :
  List.length (filter g (insert_row r rows))
  = (List.length (filter g rows) + if g r then 1 else 0)%nat.
Proof.
  rewrite filter_insert, length_app. now destruct (g r).
Qed.

Lemma length_filter_none g rows :
  (forall x, In x rows -> g x = false) -> List.length (filter g rows) = 0%nat.
Proof.
  intros H. induction rows as [|x rows IH]; simpl; [reflexivity|].
  rewrite (H x) by now left. apply IH. intros y Hy. apply H. now right.
Qed.

Lemma NoDup_insert_fresh rows r :
  key r = fresh_id key rows ->
  NoDup (map key rows) -> NoDup (map key (insert_row r rows)).
Proof.
  intros Hk Hnd. unfold insert_row. rewrite map_app. simpl.
  apply NoDup_app; [exact Hnd | repeat constructor; now intros [] |].
  intros j Hj [<-|[]]. apply in_map_iff in Hj as (x & Hx & Hin).
  pose proof (fresh_id_above key rows x Hin). lia.
Qed.

Lemma NoDup_delete w rows :
  NoDup (map key rows) -> NoDup (map key (delete_rows w rows)).
Proof.
  unfold delete_rows. induction rows as [|r rows IH]; simpl; [trivial|].
  intros Hnd. inversion Hnd as [|? ? Hnot Hrest]; subst.
  destruct (w r); simpl; [now apply IH|].
  constructor; [|now apply IH].
  intros Hin. apply Hnot. apply in_map_iff in Hin as (x & Hx & Hin).
  apply filter_In in Hin as [Hin _]. apply in_map_iff. now exists x.
Qed.

(** With unique keys, deleting by the key of a row removes that row only. *)
Lemma length_filter_delete g rows e :
  NoDup (map key rows) -> In e rows ->
  List.length (filter g rows)
  = (List.length (filter g (delete_rows (fun x => Z.eqb (key x) (key e)) rows))
     + if g e then 1 else 0)%nat.
Proof.
  unfold delete_rows. induction rows as [|r rows IH]; simpl; [tauto|].
  intros Hnd Hin. inversion Hnd as [|? ? Hnot Hrest]; subst.
  destruct Hin as [->|Hin].
  - rewrite Z.eqb_refl. simpl.
    assert (Hsame : filter (fun x => negb (key x =? key e)) rows = rows).
    { apply forallb_filter_id, forallb_forall. intros x Hx.
      apply negb_true_iff, Z.eqb_neq. intros Heq. apply Hnot.
      rewrite <- Heq. now apply in_map. }
    rewrite Hsame. destruct (g e); simpl; lia.
  - assert (Hne : key r <> key e).
    { intros Heq. apply Hnot. rewrite Heq. now apply in_map. }
    apply Z.eqb_neq in Hne. rewrite Hne. simpl.
    specialize (IH Hrest Hin). destruct (g r); simpl; lia.
Qed.
End KeyedFacts.

(** ** Primary keys *)

Lemma written_keys_unique db db' :
  Written db db' -> keys_unique db -> keys_unique db'.
Proof.
  intros W (Hp & Hc & Hpv & Hcv). unfold keys_unique.
  destruct W;
    cbn [posts comments postUpvotes commentUpvoted set_posts set_comments
         set_postUpvotes set_commentUpvoted];
    repeat split;
    try assumption;
    try (rewrite map_key_update by reflexivity; assumption);
    try (apply NoDup_delete; assumption);
    try (apply NoDup_insert_fresh; [reflexivity | assumption]).
  apply NoDup_insert_fresh.
  - cbn [Comment.id]. now rewrite fresh_id_update.
  - now rewrite map_key_update.
Qed.

(** X11.  The inserts of the routes take an id no row of the table
    carries, and nothing rewrites an id: a store whose posts, comments and
    vote rows have pairwise distinct ids keeps that through every sequence
    of operations. *)
Theorem keys_unique_invariant :
  forall ops db, keys_unique db -> keys_unique (run ops db).
Proof. apply run_invariant. exact written_keys_unique. Qed.

(** X11 on the sample store, through a post, a comment, a reply and two
    toggles. *)
Lemma keys_unique_invariant_witness :
  keys_unique
    (run [CreatePost 300 (Some bob) "news" None None;
          CreateTopLevelComment 301 (Some alice) 2 "nice";
          CreateReply 302 (Some bob) 5 "thanks";
          TogglePostUpvote 303 (Some alice) 1;
          ToggleCommentUpvote 304 (Some bob) 6]
         db_voted).
Proof.
  apply (keys_unique_invariant _ db_voted).
  unfold keys_unique. simpl.
  repeat split; repeat constructor; simpl; intuition discriminate.
Defined.

(** ** The comment counters *)

Lemma no_comment_on_fresh_post db c :
  (forall c, In c (comments db) -> find_post db (Comment.postId c) <> None) ->
  In c (comments db) ->
  (Comment.postId c =? fresh_id Post.id (posts db)) = false.
Proof.
  intros Href Hin. apply Z.eqb_neq.
  apply (fresh_not_key Post.id). now apply Href.
Qed.

Lemma no_child_of_fresh db c :
  (forall c pid, In c (comments db) -> Comment.parentCommentId c = Some pid ->
                 find_comment db pid <> None) ->
  In c (comments db) ->
  is_child_of (fresh_id Comment.id (comments db)) c = false.
Proof.
  intros Href Hin. destruct (is_child_of _ c) eqn:E; [|reflexivity].
  apply is_child_of_parent in E.
  exfalso. apply (Href c _ Hin E). apply find_fresh.
Qed.

Lemma written_counters db db' :
  Written db db' -> counters_consistent db -> counters_consistent db'.
Proof.
  intros W (Hposts & Hcomments & Hrp & Hrc).
  destruct W as [|now u title content url|now u id content post Hp
                |now u id content parent post Hc Hp|now u id post Hp Hv
                |u id post e Hp Hv|now u id c Hc Hv|u id c e Hc Hv];
    unfold counters_consistent, comments_refer, post_comment_total,
      child_total, find_post, find_comment in *;
    cbn [posts comments set_posts set_comments set_postUpvotes
         set_commentUpvoted].
  - (* nothing written *)
    repeat split; assumption.
  - (* a post *)
    repeat split; try assumption.
    + intros p Hin. apply In_insert_row in Hin as [Hin| ->]; [now apply Hposts|].
      cbn [Post.commentCount Post.id].
      rewrite length_filter_none; [reflexivity|].
      intros c Hc. now apply no_comment_on_fresh_post.
    + intros c Hin. apply (has_key_insert Post.id). now apply Hrp.
  - (* a top-level comment *)
    repeat split.
    + intros p' Hin. apply In_update_rows in Hin as (p & Hin & ->).
      rewrite length_filter_insert. cbn [Comment.postId].
      specialize (Hposts p Hin).
      destruct (Z.eqb_spec (Post.id p) id) as [E|E];
        cbn [Post.commentCount Post.id Post.set_commentCount]; unfold incr.
      * rewrite E, Z.eqb_refl in *. lia.
      * destruct (Z.eqb_spec id (Post.id p)); [congruence | lia].
    + intros c' Hin. rewrite length_filter_insert.
      unfold is_child_of at 2. cbn [Comment.parentCommentId eq_nullable].
      apply In_insert_row in Hin as [Hin| ->].
      * rewrite (Hcomments c' Hin). lia.
      * cbn [Comment.commentCount Comment.id].
        rewrite length_filter_none; [reflexivity|].
        intros c Hc. now apply no_child_of_fresh.
    + intros c' Hin. apply (has_key_update Post.id); [reflexivity|].
      apply In_insert_row in Hin as [Hin| ->]; [now apply Hrp|].
      cbn [Comment.postId]. now rewrite Hp.
    + intros c' pid Hin Hpar. apply (has_key_insert Comment.id).
      apply In_insert_row in Hin as [Hin| ->]; [now apply (Hrc c')|].
      discriminate.
  - (* a reply *)
    assert (Hid : id <> fresh_id Comment.id (comments db)).
    { apply (fresh_not_key Comment.id). now rewrite Hc. }
    repeat split.
    + intros p' Hin. apply In_update_rows in Hin as (p & Hin & ->).
      rewrite length_filter_insert, length_filter_update by reflexivity.
      cbn [Comment.postId]. specialize (Hposts p Hin).
      destruct (Z.eqb_spec (Post.id p) (Comment.postId parent)) as [E|E];
        cbn [Post.commentCount Post.id Post.set_commentCount]; unfold incr.
      * rewrite E, Z.eqb_refl in *. lia.
      * destruct (Z.eqb_spec (Comment.postId parent) (Post.id p));
          [congruence | lia].
    + intros c' Hin. rewrite length_filter_insert.
      rewrite length_filter_update by reflexivity.
      unfold is_child_of at 2. cbn [Comment.parentCommentId eq_nullable].
      apply In_insert_row in Hin as [Hin| ->].
      * apply In_update_rows in Hin as (c & Hin & ->).
        specialize (Hcomments c Hin).
        destruct (Z.eqb_spec (Comment.id c) id) as [E|E];
          cbn [Comment.commentCount Comment.id Comment.set_commentCount];
          unfold incr.
        -- rewrite E, Z.eqb_refl in *. lia.
        -- destruct (Z.eqb_spec id (Comment.id c)); [congruence | lia].
      * cbn [Comment.commentCount Comment.id].
        rewrite length_filter_none.
        -- destruct (Z.eqb_spec id (fresh_id Comment.id (comments db)));
             [contradiction | reflexivity].
        -- intros c Hin. now apply no_child_of_fresh.
    + intros c' Hin. apply (has_key_update Post.id); [reflexivity|].
      apply In_insert_row in Hin as [Hin| ->].
      * apply In_update_rows in Hin as (c & Hin & ->).
        replace (Comment.postId (if Comment.id c =? id
                                 then Comment.set_commentCount incr c else c))
          with (Comment.postId c) by (now destruct (Comment.id c =? id)).
        now apply Hrp.
      * cbn [Comment.postId]. now rewrite Hp.
    + intros c' pid Hin Hpar. apply (has_key_insert Comment.id).
      apply (has_key_update Comment.id); [reflexivity|].
      apply In_insert_row in Hin as [Hin| ->].
      * apply In_update_rows in Hin as (c & Hin & ->).
        apply (Hrc c); [exact Hin|].
        now destruct (Comment.id c =? id).
      * injection Hpar as <-. now rewrite Hc.
  - (* a vote on a post *)
    repeat split; try assumption.
    + intros p' Hin. apply In_update_rows in Hin as (p & Hin & ->).
      specialize (Hposts p Hin). now destruct (Post.id p =? id).
    + intros c' Hin. apply (has_key_update Post.id); [reflexivity|].
      now apply Hrp.
  - (* a vote taken off a post *)
    repeat split; try assumption.
    + intros p' Hin. apply In_update_rows in Hin as (p & Hin & ->).
      specialize (Hposts p Hin). now destruct (Post.id p =? id).
    + intros c' Hin. apply (has_key_update Post.id); [reflexivity|].
      now apply Hrp.
  - (* a vote on a comment *)
    repeat split.
    + intros p Hin. rewrite length_filter_update by reflexivity.
      now apply Hposts.
    + intros c' Hin. rewrite length_filter_update by reflexivity.
      apply In_update_rows in Hin as (c0 & Hin & ->).
      specialize (Hcomments c0 Hin). now destruct (Comment.id c0 =? id).
    + intros c' Hin. apply In_update_rows in Hin as (c0 & Hin & ->).
      specialize (Hrp c0 Hin). now destruct (Comment.id c0 =? id).
    + intros c' pid Hin Hpar. apply (has_key_update Comment.id);
        [reflexivity|].
      apply In_update_rows in Hin as (c0 & Hin & ->).
      apply (Hrc c0 pid Hin). now destruct (Comment.id c0 =? id).
  - (* a vote taken off a comment *)
    repeat split.
    + intros p Hin. rewrite length_filter_update by reflexivity.
      now apply Hposts.
    + intros c' Hin. rewrite length_filter_update by reflexivity.
      apply In_update_rows in Hin as (c0 & Hin & ->).
      specialize (Hcomments c0 Hin). now destruct (Comment.id c0 =? id).
    + intros c' Hin. apply In_update_rows in Hin as (c0 & Hin & ->).
      specialize (Hrp c0 Hin). now destruct (Comment.id c0 =? id).
    + intros c' pid Hin Hpar. apply (has_key_update Comment.id);
        [reflexivity|].
      apply In_update_rows in Hin as (c0 & Hin & ->).
      apply (Hrc c0 pid Hin). now destruct (Comment.id c0 =? id).
Qed.

(** X12.  Every operation keeps the comment counters true to the rows: in
    a store where each post's commentCount is the number of its comments
    (replies included), each comment's commentCount is the number of its
    direct children, and every comment names an existing post and parent,
    the same holds after any sequence of operations. *)
Theorem counters_consistent_invariant :
  forall ops db, counters_consistent db -> counters_consistent (run ops db).
Proof. apply run_invariant. exact written_counters. Qed.

(** X12 on the sample thread, through a post, comments on both posts, a
    reply to a reply and a toggle. *)
Lemma counters_consistent_invariant_witness :
  counters_consistent
    (run [CreatePost 300 (Some bob) "news" None None;
          CreateTopLevelComment 301 (Some alice) 2 "nice";
          CreateReply 302 (Some bob) 3 "deeper";
          CreateTopLevelComment 303 (Some bob) 1 "second";
          ToggleCommentUpvote 304 (Some bob) 6]
         db_thread).
Proof.
  apply (counters_consistent_invariant _ db_thread).
  split; [|split; [|split]].
  - intros p [<-|[]]. reflexivity.
  - intros c [<-|[<-|[<-|[<-|[]]]]]; reflexivity.
  - intros c [<-|[<-|[<-|[<-|[]]]]]; discriminate.
  - intros c pid [<-|[<-|[<-|[<-|[]]]]] [= <-]; discriminate.
Defined.

(** ** The points counters *)

Lemma written_points db db' :
  Written db db' -> points_consistent db -> points_consistent db'.
Proof.
  intros W (Hposts & Hcomments & (Hrp & Hrc) & Hndp & Hndc).
  destruct W as [|now u title content url|now u id content post Hp
                |now u id content parent post Hc Hp|now u id post Hp Hv
                |u id post e Hp Hv|now u id c Hc Hv|u id c e Hc Hv];
    unfold points_consistent, votes_refer, post_vote_total,
      comment_vote_total, find_post, find_comment in *;
    cbn [posts comments postUpvotes commentUpvoted set_posts set_comments
         set_postUpvotes set_commentUpvoted].
  - (* nothing written *)
    repeat split; assumption.
  - (* a post *)
    repeat split; try assumption.
    + intros p Hin. apply In_insert_row in Hin as [Hin| ->]; [now apply Hposts|].
      cbn [Post.points Post.id]. rewrite length_filter_none; [reflexivity|].
      intros v Hv. apply Z.eqb_neq, (fresh_not_key Post.id). now apply Hrp.
    + intros v Hv. apply (has_key_insert Post.id). now apply Hrp.
  - (* a top-level comment *)
    repeat split; try assumption.
    + intros p' Hin. apply In_update_rows in Hin as (p & Hin & ->).
      specialize (Hposts p Hin). now destruct (Post.id p =? id).
    + intros c' Hin. apply In_insert_row in Hin as [Hin| ->];
        [now apply Hcomments|].
      cbn [Comment.points Comment.id].
      rewrite length_filter_none; [reflexivity|].
      intros v Hv. apply Z.eqb_neq, (fresh_not_key Comment.id).
      now apply Hrc.
    + intros v Hv. apply (has_key_update Post.id); [reflexivity|].
      now apply Hrp.
    + intros v Hv. apply (has_key_insert Comment.id). now apply Hrc.
  - (* a reply *)
    repeat split; try assumption.
    + intros p' Hin. apply In_update_rows in Hin as (p & Hin & ->).
      specialize (Hposts p Hin).
      now destruct (Post.id p =? Comment.postId parent).
    + intros c' Hin. apply In_insert_row in Hin as [Hin| ->].
      * apply In_update_rows in Hin as (c & Hin & ->).
        specialize (Hcomments c Hin). now destruct (Comment.id c =? id).
      * cbn [Comment.points Comment.id].
        rewrite length_filter_none; [reflexivity|].
        intros v Hv. apply Z.eqb_neq, (fresh_not_key Comment.id).
        now apply Hrc.
    + intros v Hv. apply (has_key_update Post.id); [reflexivity|].
      now apply Hrp.
    + intros v Hv. apply (has_key_insert Comment.id).
      apply (has_key_update Comment.id); [reflexivity|]. now apply Hrc.
  - (* a vote on a post *)
    repeat split; try assumption.
    + intros p' Hin. apply In_update_rows in Hin as (p & Hin & ->).
      rewrite length_filter_insert. cbn [PostUpvote.postId].
      specialize (Hposts p Hin).
      destruct (Z.eqb_spec (Post.id p) id) as [E|E];
        cbn [Post.points Post.id Post.set_points].
      * rewrite E, Z.eqb_refl in *. lia.
      * destruct (Z.eqb_spec id (Post.id p)); [congruence | lia].
    + intros v Hin. apply (has_key_update Post.id); [reflexivity|].
      apply In_insert_row in Hin as [Hin| ->]; [now apply Hrp|].
      cbn [PostUpvote.postId]. now rewrite Hp.
    + now apply NoDup_insert_fresh.
  - (* a vote taken off a post *)
    pose proof (find_some _ _ Hv) as [Hine He].
    apply is_post_vote_inv in He as [He _].
    repeat split; try assumption.
    + intros p' Hin. apply In_update_rows in Hin as (p & Hin & ->).
      specialize (Hposts p Hin).
      rewrite (length_filter_delete PostUpvote.id
                 (fun v => PostUpvote.postId v =? Post.id p) _ e Hndp Hine)
        in Hposts.
      rewrite He in Hposts.
      destruct (Z.eqb_spec (Post.id p) id) as [E|E];
        cbn [Post.points Post.id Post.set_points].
      * rewrite E, Z.eqb_refl in *. lia.
      * destruct (Z.eqb_spec id (Post.id p)); [congruence | lia].
    + intros v Hin. apply (has_key_update Post.id); [reflexivity|].
      apply filter_In in Hin as [Hin _]. now apply Hrp.
    + now apply NoDup_delete.
  - (* a vote on a comment *)
    repeat split; try assumption.
    + intros c' Hin. apply In_update_rows in Hin as (c0 & Hin & ->).
      rewrite length_filter_insert. cbn [CommentUpvote.commentId].
      specialize (Hcomments c0 Hin).
      destruct (Z.eqb_spec (Comment.id c0) id) as [E|E];
        cbn [Comment.points Comment.id Comment.set_points].
      * rewrite E, Z.eqb_refl in *. lia.
      * destruct (Z.eqb_spec id (Comment.id c0)); [congruence | lia].
    + intros v Hin. apply (has_key_update Comment.id); [reflexivity|].
      apply In_insert_row in Hin as [Hin| ->]; [now apply Hrc|].
      cbn [CommentUpvote.commentId]. now rewrite Hc.
    + now apply NoDup_insert_fresh.
  - (* a vote taken off a comment *)
    pose proof (find_some _ _ Hv) as [Hine He].
    apply is_comment_vote_inv in He as [He _].
    repeat split; try assumption.
    + intros c' Hin. apply In_update_rows in Hin as (c0 & Hin & ->).
      specialize (Hcomments c0 Hin).
      rewrite (length_filter_delete CommentUpvote.id
                 (fun v => CommentUpvote.commentId v =? Comment.id c0) _ e
                 Hndc Hine) in Hcomments.
      rewrite He in Hcomments.
      destruct (Z.eqb_spec (Comment.id c0) id) as [E|E];
        cbn [Comment.points Comment.id Comment.set_points].
      * rewrite E, Z.eqb_refl in *. lia.
      * destruct (Z.eqb_spec id (Comment.id c0)); [congruence | lia].
    + intros v Hin. apply (has_key_update Comment.id); [reflexivity|].
      apply filter_In in Hin as [Hin _]. now apply Hrc.
    + now apply NoDup_delete.
Qed.

(** X13.  Every operation keeps the points true to the vote rows: in a
    store where each post's and comment's points is the number of vote
    rows on it, every vote row names an existing post or comment, and vote
    rows have distinct ids, the same holds after any sequence of
    operations. *)
Theorem points_consistent_invariant :
  forall ops db, points_consistent db -> points_consistent (run ops db).
Proof. apply run_invariant. exact written_points. Qed.

(** X13 from one post without votes, through comments and toggles by both
    users, some of them taken back. *)
Lemma points_consistent_invariant_witness :
  points_consistent
    (run [TogglePostUpvote 300 (Some bob) 1;
          CreateTopLevelComment 301 (Some alice) 1 "first";
          ToggleCommentUpvote 302 (Some bob) 1;
          ToggleCommentUpvote 303 (Some alice) 1;
          TogglePostUpvote 304 (Some bob) 1;
          ToggleCommentUpvote 305 (Some bob) 1]
         db_post)
  /\ option_map Comment.points
       (find_comment
          (run [TogglePostUpvote 300 (Some bob) 1;
                CreateTopLevelComment 301 (Some alice) 1 "first";
                ToggleCommentUpvote 302 (Some bob) 1;
                ToggleCommentUpvote 303 (Some alice) 1;
                TogglePostUpvote 304 (Some bob) 1;
                ToggleCommentUpvote 305 (Some bob) 1]
               db_post) 1)
     = Some 1.
Proof.
  split; [|reflexivity].
  apply (points_consistent_invariant _ db_post).
  split; [|split; [|split; [|split]]].
  - intros p [<-|[]]. reflexivity.
  - intros c [].
  - split; intros v [].
  - constructor.
  - constructor.
Defined.

(** ** The shape of threads *)

Lemma thread_update db w f :
  (forall r, Comment.id (f r) = Comment.id r) ->
  (forall r, Comment.parentCommentId (f r) = Comment.parentCommentId r) ->
  (forall r, Comment.depth (f r) = Comment.depth r) ->
  (forall r, Comment.postId (f r) = Comment.postId r) ->
  thread_wellformed db ->
  thread_wellformed (set_comments (update_rows w f) db).
Proof.
  intros Hid Hpar Hdepth Hpost H c' Hin. cbn [comments set_comments] in Hin.
  apply In_update_rows in Hin as (c & Hin & ->). specialize (H c Hin).
  assert (Hsame : forall r : Comment.t,
             Comment.id (if w r then f r else r) = Comment.id r
             /\ Comment.parentCommentId (if w r then f r else r)
                = Comment.parentCommentId r
             /\ Comment.depth (if w r then f r else r) = Comment.depth r
             /\ Comment.postId (if w r then f r else r) = Comment.postId r).
  { intros r. destruct (w r); auto. }
  destruct (Hsame c) as (-> & -> & -> & ->).
  destruct (Comment.parentCommentId c) as [pid|]; [|exact H].
  destruct H as (Hlt & parent & Hfind & Hd & Hp). split; [exact Hlt|].
  exists (if w parent then f parent else parent).
  destruct (Hsame parent) as (_ & _ & -> & ->).
  split; [|now split].
  unfold find_comment in *. cbn [comments set_comments].
  rewrite (find_key_update Comment.id) by exact Hid. now rewrite Hfind.
Qed.

Lemma thread_insert db row :
  thread_wellformed db ->
  match Comment.parentCommentId row with
  | None => Comment.depth row = 0
  | Some pid =>
      pid < Comment.id row
      /\ exists parent,
          find_comment db pid = Some parent
          /\ Comment.depth row = Comment.depth parent + 1
          /\ Comment.postId row = Comment.postId parent
  end ->
  thread_wellformed (set_comments (insert_row row) db).
Proof.
  intros H Hrow c Hin. cbn [comments set_comments] in Hin.
  assert (Hc : match Comment.parentCommentId c with
               | None => Comment.depth c = 0
               | Some pid =>
                   pid < Comment.id c
                   /\ exists parent,
                       find_comment db pid = Some parent
                       /\ Comment.depth c = Comment.depth parent + 1
                       /\ Comment.postId c = Comment.postId parent
               end).
  { apply In_insert_row in Hin as [Hin| ->]; [now apply H | exact Hrow]. }
  destruct (Comment.parentCommentId c) as [pid|]; [|exact Hc].
  destruct Hc as (Hlt & parent & Hfind & Hd & Hp). split; [exact Hlt|].
  exists parent. split; [|now split].
  unfold find_comment in *. cbn [comments set_comments].
  now apply find_app_some.
Qed.

Lemma thread_comments_only db db' :
  comments db' = comments db -> thread_wellformed db -> thread_wellformed db'.
Proof.
  unfold thread_wellformed, find_comment. now intros ->.
Qed.

Lemma written_thread db db' :
  Written db db' -> thread_wellformed db -> thread_wellformed db'.
Proof.
  intros W H.
  destruct W as [|now u title content url|now u id content post Hp
                |now u id content parent post Hc Hp|now u id post Hp Hv
                |u id post e Hp Hv|now u id c Hc Hv|u id c e Hc Hv];
    try exact H.
  - apply (thread_insert (set_posts _ db)); [exact H | reflexivity].
  - apply (thread_insert (set_posts _ (set_comments _ db))).
    + apply (thread_update db); try reflexivity. exact H.
    + cbn [Comment.parentCommentId Comment.id Comment.depth Comment.postId].
      split.
      * pose proof (find_some _ _ Hc) as [Hin Hid]. apply Z.eqb_eq in Hid.
        rewrite <- Hid. now apply fresh_id_above.
      * exists (Comment.set_commentCount incr parent).
        split; [|now split].
        unfold find_comment in *. cbn [comments set_posts set_comments].
        rewrite find_update_same by reflexivity. now rewrite Hc.
  - refine (thread_comments_only (set_comments (update_rows _ _) db) _
              eq_refl _).
    apply (thread_update db); try reflexivity. exact H.
  - refine (thread_comments_only (set_comments (update_rows _ _) db) _
              eq_refl _).
    apply (thread_update db); try reflexivity. exact H.
Qed.

(** X14.  Every operation keeps threads well formed: in a store where each
    comment without parent has depth 0 and each reply names an older
    comment of the same post, one level above it, the same holds after
    any sequence of operations. *)
Theorem thread_wellformed_invariant :
  forall ops db, thread_wellformed db -> thread_wellformed (run ops db).
Proof. apply run_invariant. exact written_thread. Qed.

(** X14 on the sample thread, through a reply to a reply and a toggle on
    the parent. *)
Lemma thread_wellformed_invariant_witness :
  thread_wellformed
    (run [CreateReply 300 (Some bob) 3 "deeper";
          ToggleCommentUpvote 301 (Some alice) 3;
          CreateReply 302 (Some alice) 5 "deeper still"]
         db_thread)
  /\ option_map Comment.depth
       (find_comment
          (run [CreateReply 300 (Some bob) 3 "deeper";
                ToggleCommentUpvote 301 (Some alice) 3;
                CreateReply 302 (Some alice) 5 "deeper still"]
               db_thread) 6)
     = Some 3.
Proof.
  split; [|reflexivity].
  apply (thread_wellformed_invariant _ db_thread).
  intros c [<-|[<-|[<-|[<-|[]]]]]; cbn [Comment.parentCommentId];
    try reflexivity;
    (split; [reflexivity|]);
    exists (Comment.mk 1 (user_id bob) 1 None "first" 110 0 3 0);
    repeat split.
Defined.

(** In a well-formed thread no depth is negative, and replies lie deeper
    than 0. *)
Lemma thread_depths db :
  thread_wellformed db ->
  forall c, In c (comments db) ->
            0 <= Comment.depth c
            /\ (Comment.depth c = 0 <-> Comment.parentCommentId c = None).
Proof.
  intros H.
  set (m := - fresh_id (fun c => - Comment.id c) (comments db)).
  assert (Hm : forall c, In c (comments db) -> m <= Comment.id c).
  { intros c Hin.
    pose proof (fresh_id_above (fun c => - Comment.id c) _ c Hin) as Hlt.
    cbv beta in Hlt. unfold m. lia. }
  assert (Hpos : forall x c, In c (comments db) -> Comment.id c = x ->
                             0 <= Comment.depth c).
  { intros x. induction (Z.lt_wf m x) as [x _ IH].
    intros c Hin Hx. specialize (H c Hin).
    destruct (Comment.parentCommentId c) as [pid|]; [|lia].
    destruct H as (Hlt & parent & Hfind & Hd & _).
    apply find_some in Hfind as [Hpin Hpid]. apply Z.eqb_eq in Hpid.
    assert (0 <= Comment.depth parent).
    { apply (IH pid); [|exact Hpin | exact Hpid].
      specialize (Hm parent Hpin). lia. }
    lia. }
  intros c Hin. split; [now apply (Hpos (Comment.id c))|].
  specialize (H c Hin).
  destruct (Comment.parentCommentId c) as [pid|].
  - destruct H as (_ & parent & Hfind & Hd & _).
    apply find_some in Hfind as [Hpin _].
    pose proof (Hpos _ parent Hpin eq_refl).
    split; [lia | discriminate].
  - now split.
Qed.

(** X15.  In every store reached from a well-formed one, no comment has a
    negative depth, and a comment has depth 0 exactly when it is top-level
    (has no parent). *)
Theorem depth_zero_iff_top_level :
  forall ops db,
    thread_wellformed db ->
    forall c, In c (comments (run ops db)) ->
              0 <= Comment.depth c
              /\ (Comment.depth c = 0 <-> Comment.parentCommentId c = None).
Proof.
  intros ops db H. apply thread_depths.
  now apply (run_invariant thread_wellformed written_thread).
Qed.

(** X15 on the sample thread after a reply to a reply: the new comment is
    no top-level comment and lies at depth 2. *)
Lemma depth_zero_iff_top_level_witness :
  let c := Comment.mk 5 (user_id bob) 1 (Some 3) "deeper" 300 2 0 0 in
  0 <= Comment.depth c
  /\ (Comment.depth c = 0 <-> Comment.parentCommentId c = None).
Proof.
  apply (depth_zero_iff_top_level
           [CreateReply 300 (Some bob) 3 "deeper"] db_thread).
  - intros c [<-|[<-|[<-|[<-|[]]]]]; cbn [Comment.parentCommentId];
      try reflexivity;
      (split; [reflexivity|]);
      exists (Comment.mk 1 (user_id bob) 1 None "first" 110 0 3 0);
      repeat split.
  - vm_compute. tauto.
Defined.

(** ** What the post comment listing can return *)

Lemma postRouter_comments_nothing c_user id q db :
  (forall c, In c (comments db) -> find_post db (Comment.postId c) <> None) ->
  items_of (fst (postRouter_comments c_user id q db)) = [].
Proof.
  intros Href. unfold postRouter_comments.
  rewrite first_limit_one, first_map, first_filter.
  fold (find_post db id).
  destruct (find_post db id) eqn:E; cbn [option_map fst items_of p_data];
    [reflexivity|].
  unfold post_comments.
  assert (Hnone : filter (fun c => (Comment.postId c =? id)
                                   && isNull (Comment.parentCommentId c))
                         (comments db) = []).
  { apply length_zero_iff_nil, length_filter_none. intros c Hin.
    destruct (Z.eqb_spec (Comment.postId c) id) as [Heq|]; [|reflexivity].
    specialize (Href c Hin). rewrite Heq in Href. contradiction. }
  rewrite Hnone. unfold sql_offset, sql_limit. cbn [order_by fold_right].
  now rewrite skipn_nil, firstn_nil.
Qed.

(** X16.  In every store reached from one where the counters are
    consistent (so every comment names an existing post), [GET
    /:id/comments] on a post never returns a comment: it throws when the
    post exists, and no comment names a post that does not. *)
Theorem listPostComments_never_lists :
  forall ops db c_user id q,
    counters_consistent db ->
    items_of (fst (postRouter_comments c_user id q (run ops db))) = [].
Proof.
  intros ops db c_user id q H.
  apply postRouter_comments_nothing.
  apply (run_invariant counters_consistent written_counters ops) in H.
  destruct H as (_ & _ & Href & _). exact Href.
Qed.

(** X16 on the sample thread after one more top-level comment: neither the
    existing post 1 nor the missing post 9 lists anything. *)
Lemma listPostComments_never_lists_witness :
  items_of (fst (postRouter_comments
                   (Some alice) 1 by_points_desc
                   (run [CreateTopLevelComment 300 (Some bob) 1 "second"]
                        db_thread))) = []
  /\ items_of (fst (postRouter_comments
                      (Some alice) 9 by_points_desc
                      (run [CreateTopLevelComment 300 (Some bob) 1 "second"]
                           db_thread))) = [].
Proof.
  assert (H : counters_consistent db_thread).
  { split; [|split; [|split]].
    - intros p [<-|[]]. reflexivity.
    - intros c [<-|[<-|[<-|[<-|[]]]]]; reflexivity.
    - intros c [<-|[<-|[<-|[<-|[]]]]]; discriminate.
    - intros c pid [<-|[<-|[<-|[<-|[]]]]] [= <-]; discriminate. }
  split; apply (listPostComments_never_lists _ db_thread); exact H.
Defined.
